(** * Order fulfilment: stock ledger, order state machine, checkout,
      payment settlement and the expiry sweep

    A shallow embedding of the Mongoose models [Product], [Order], [Cart] and
    [Payment], of the two order routes [POST /checkout] and [POST /:id/pay],
    and of [cancelExpiredOrders] from [utils/orderTimeout.js].

    Conventions of the embedding.
    - Stock counters are JavaScript numbers holding integers; they are [Z].
      Fields that no handler ever assigns after creation carry their schema
      bound in their type: [quantity] (schema [min 1]) is a [positive],
      [price], [priceAtPurchase], [totalAmount] and [amount] (schema
      [min 0]) are [N].
    - A model method runs on the in-memory document [this], assigns its
      fields and ends in [this.save()].  It is embedded as a function that
      returns the document as it is in memory after the call, together with
      the completion of the call: [Saved], or [Threw e].
    - [save()] runs the schema validators and persists the document only
      when they pass.  For a product these are the [min 0] bounds of the
      three counters.  An order is only ever assigned a status of the enum,
      so that its [save()] resolves.
    - A handler runs from its first statement to its last with no other
      handler in between.
    - A write takes part in the transaction of a session when the call is
      handed the session.  In the two routes these are [Order.create] and
      [Payment.create], called with [{ session }].  The cart, the order and
      their populated products are read by queries that are not handed the
      session, so that [save()] on these documents is an ordinary write: it
      is in the collection at once and an abort does not take it back.
    - Time is a number of milliseconds; [new Date()] is the parameter [now]. *)

From stdpp Require Import gmap strings list.

Local Open Scope Z_scope.

Abbreviation ObjectId := nat (only parsing).

(** ** Exceptions and completions *)

(** [AppError] is the repository's HTTP error (message, status code);
    [Error] is the plain JavaScript error thrown by the model methods;
    [ValidationError] is what [save()] rejects with, carrying the messages
    of the failed validators; [TypeError] is the runtime's error for a
    property read on [null]; [MongoServerError] and [QueueError] come from
    the two external stores. *)
Inductive exn : Type :=
  | AppError (message : string) (statusCode : Z)
  | Error (message : string)
  | ValidationError (errors : list string)
  | TypeError (message : string)
  | MongoServerError (code : Z)
  | QueueError (message : string).

Inductive completion : Type :=
  | Saved
  | Threw (e : exn).

(** The value of a JavaScript function call, as far as the sweep needs it. *)
Inductive JsValue : Type :=
  | undefined
  | number (n : Z).

(** ** models/Product.js *)

Module Product.

Record t : Type := mk {
  name : string;
  price : N;
  stock : Z;
  availableStock : Z;
  reservedStock : Z
}.

(** The [min: [0, ...]] validators of the three counters, in schema
    order; the result lists the messages of the ones that fail. *)
Definition validate (this : t) : list string :=
  (if stock this <? 0 then ["Stock cannot be negative"%string] else []) ++
  (if availableStock this <? 0 then ["Available stock cannot be negative"%string] else []) ++
  (if reservedStock this <? 0 then ["Reserved stock cannot be negative"%string] else []).

Definition save (this : t) : t * completion :=
  match validate this with
  | [] => (this, Saved)
  | errors => (this, Threw (ValidationError errors))
  end.

(** [productSchema.virtual('totalStock')] *)
Definition totalStock (this : t) : Z :=
  availableStock this + reservedStock this.

Definition reserveStock (this : t) (quantity : Z) : t * completion :=
  if availableStock this <? quantity then
    (this, Threw (Error "Insufficient stock available"))
  else
    let this := mk (name this) (price this) (stock this)
                   (availableStock this - quantity) (reservedStock this) in
    let this := mk (name this) (price this) (stock this)
                   (availableStock this) (reservedStock this + quantity) in
    save this.

Definition releaseReservedStock (this : t) (quantity : Z) : t * completion :=
  if reservedStock this <? quantity then
    (this, Threw (Error "Insufficient reserved stock to release"))
  else
    let this := mk (name this) (price this) (stock this)
                   (availableStock this) (reservedStock this - quantity) in
    let this := mk (name this) (price this) (stock this)
                   (availableStock this + quantity) (reservedStock this) in
    save this.

Definition confirmStockDeduction (this : t) (quantity : Z) : t * completion :=
  if reservedStock this <? quantity then
    (this, Threw (Error "Insufficient reserved stock to confirm"))
  else
    let this := mk (name this) (price this) (stock this)
                   (availableStock this) (reservedStock this - quantity) in
    let this := mk (name this) (price this) (stock this - quantity)
                   (availableStock this) (reservedStock this) in
    save this.

(** Invariant I1 of the data model and the sign condition on the
    counters. *)
Definition I1 (this : t) : Prop :=
  stock this = availableStock this + reservedStock this.

Definition nonNegative (this : t) : Prop :=
  0 <= stock this /\ 0 <= availableStock this /\ 0 <= reservedStock this.

End Product.

(** ** models/Order.js *)

Module Order.

Inductive Status : Type :=
  | PENDING_PAYMENT
  | PAID
  | SHIPPED
  | DELIVERED
  | CANCELLED.

#[global] Instance Status_eq_dec : EqDecision Status.
Proof. solve_decision. Defined.

Definition statusName (s : Status) : string :=
  match s with
  | PENDING_PAYMENT => "PENDING_PAYMENT"
  | PAID => "PAID"
  | SHIPPED => "SHIPPED"
  | DELIVERED => "DELIVERED"
  | CANCELLED => "CANCELLED"
  end.

Record Item : Type := mkItem {
  productId : ObjectId;
  quantity : positive;
  priceAtPurchase : N
}.

Record t : Type := mk {
  userId : ObjectId;
  items : list Item;
  totalAmount : N;
  status : Status;
  paymentDeadline : Z
}.

(** [order.status = s] on the in-memory document. *)
Definition setStatus (s : Status) (this : t) : t :=
  mk (userId this) (items this) (totalAmount this) s (paymentDeadline this).

(** The [default] of [paymentDeadline]: fifteen minutes from now. *)
Definition defaultPaymentDeadline (now : Z) : Z := now + 15 * 60 * 1000.

Definition validTransitions (s : Status) : list Status :=
  match s with
  | PENDING_PAYMENT => [PAID; CANCELLED]
  | PAID => [SHIPPED; CANCELLED]
  | SHIPPED => [DELIVERED]
  | DELIVERED => []
  | CANCELLED => []
  end.

(** [Array.prototype.includes] on statuses. *)
Definition includes (l : list Status) (s : Status) : bool :=
  existsb (fun x => bool_decide (x = s)) l.

(** The status assigned is one of the enum and no other field changes:
    [this.save()] resolves. *)
Definition updateStatus (this : t) (newStatus : Status) : t * completion :=
  if negb (includes (validTransitions (status this)) newStatus) then
    (this, Threw (Error ("Invalid status transition from " +:+
                         statusName (status this) +:+ " to " +:+
                         statusName newStatus)))
  else
    (setStatus newStatus this, Saved).

Definition isExpired (now : Z) (this : t) : bool :=
  bool_decide (status this = PENDING_PAYMENT) && (paymentDeadline this <? now).

End Order.

(** ** models/Cart.js and models/Payment.js, the user and the queue *)

Module Cart.

Record Item : Type := mkItem {
  productId : ObjectId;
  quantity : positive
}.

Record t : Type := mk {
  items : list Item
}.

Definition clearCart (this : t) : t := mk [].

(** [this.items.find(item => item.productId.toString() === productId.toString())] *)
Definition findItem (product : ObjectId) (lines : list Item) : option Item :=
  List.find (fun item => bool_decide (productId item = product)) lines.

(** The [min: [1, ...]] validator of a line's quantity, as [save()] runs it
    on the quantity a method has just assigned. *)
Definition validQuantity (n : Z) : exn + positive :=
  if n <? 1 then inl (ValidationError ["Quantity must be at least 1"%string])
  else inr (Z.to_pos n).

(** The assignment to the [quantity] of the line that [find] returned,
    which is the first line of the product. *)
Fixpoint assignQuantity (product : ObjectId) (n : positive) (lines : list Item) :
    list Item :=
  match lines with
  | [] => []
  | item :: lines =>
      if bool_decide (productId item = product) then mkItem product n :: lines
      else item :: assignQuantity product n lines
  end.

(** [this.items.filter(item => item.productId.toString() !== productId.toString())] *)
Definition withoutProduct (product : ObjectId) (lines : list Item) : list Item :=
  List.filter (fun item => negb (bool_decide (productId item = product))) lines.

(** The three methods below end in [this.save()]; the value is the saved
    cart, or what the method or the validators throw. *)
Definition addItem (this : t) (product : ObjectId) (n : Z) : exn + t :=
  match findItem product (items this) with
  | Some existingItem =>
      match validQuantity (Z.pos (quantity existingItem) + n) with
      | inl e => inl e
      | inr n' => inr (mk (assignQuantity product n' (items this)))
      end
  | None =>
      match validQuantity n with
      | inl e => inl e
      | inr n' => inr (mk (items this ++ [mkItem product n']))
      end
  end.

Definition updateItemQuantity (this : t) (product : ObjectId) (n : Z) : exn + t :=
  match findItem product (items this) with
  | None => inl (Error "Item not found in cart")
  | Some item =>
      if n <=? 0 then inr (mk (withoutProduct product (items this)))
      else
        match validQuantity n with
        | inl e => inl e
        | inr n' => inr (mk (assignQuantity product n' (items this)))
        end
  end.

Definition removeItem (this : t) (product : ObjectId) : t :=
  mk (withoutProduct product (items this)).

End Cart.

Module Payment.

Inductive Status : Type := SUCCESS | FAILED.

Record t : Type := mk {
  orderId : ObjectId;
  transactionId : string;
  amount : N;
  status : Status;
  paymentMethod : string
}.

End Payment.

Module User.

Record t : Type := mk {
  _id : ObjectId;
  email : string
}.

End User.

(** [utils/queue.js]: the Bull queue on Redis.  [add] resolves while Redis
    is in reach and rejects otherwise. *)
Module Queue.

Record Job : Type := mkJob {
  jobName : string;
  orderId : ObjectId;
  userId : ObjectId;
  userEmail : string;
  totalAmount : N
}.

Record t : Type := mk {
  reachable : bool;
  jobs : list Job
}.

End Queue.

(** ** The collections, the session and the handlers' monad *)

(** The MongoDB collections and the queue.  Orders and products are keyed
    by [_id]; a cart is keyed by the [userId] it is unique for. *)
Record State : Type := mkState {
  products : gmap ObjectId Product.t;
  orders : gmap ObjectId Order.t;
  payments : list Payment.t;
  carts : gmap ObjectId Cart.t;
  emailQueue : Queue.t
}.

(** A write handed the [{ session }] option.  It belongs to the transaction
    of that session: it reaches the collections when the transaction
    commits and is dropped when the transaction aborts. *)
Inductive SessionWrite : Type :=
  | InsertOrder (_id : ObjectId) (doc : Order.t)
  | InsertPayment (doc : Payment.t).

(** What a running handler works on: the collections [db], the populated
    product documents [docs] it holds in memory (one document per [_id],
    shared by every line that refers to it; a missing entry is a populated
    [null]), and the writes of its [session]. *)
Record Ctx : Type := mkCtx {
  db : State;
  docs : gmap ObjectId Product.t;
  session : list SessionWrite
}.

Definition M (A : Type) : Type := Ctx -> Ctx * (exn + A).

#[global] Instance M_ret : MRet M := fun A x c => (c, inr x).

#[global] Instance M_bind : MBind M := fun A B k m c =>
  match m c with
  | (c', inr x) => k x c'
  | (c', inl e) => (c', inl e)
  end.

Definition throw {A : Type} (e : exn) : M A := fun c => (c, inl e).

(** [try { body } catch (error) { handler }] *)
Definition try_catch {A : Type} (body : M A) (handler : exn -> M A) : M A :=
  fun c =>
    match body c with
    | (c', inl e) => handler e c'
    | r => r
    end.

(** [for (const x of l) { await f(x) }] *)
Fixpoint forEach {A : Type} (f : A -> M unit) (l : list A) : M unit :=
  match l with
  | [] => mret ()
  | x :: l => f x ;; forEach f l
  end.

(** Reading from what the handler works on. *)
Definition gets {A : Type} (f : Ctx -> A) : M A := fun c => (c, inr (f c)).

Definition setProducts (ps : gmap ObjectId Product.t) (s : State) : State :=
  mkState ps (orders s) (payments s) (carts s) (emailQueue s).

Definition setOrders (os : gmap ObjectId Order.t) (s : State) : State :=
  mkState (products s) os (payments s) (carts s) (emailQueue s).

Definition setPayments (ps : list Payment.t) (s : State) : State :=
  mkState (products s) (orders s) ps (carts s) (emailQueue s).

Definition setCarts (cs : gmap ObjectId Cart.t) (s : State) : State :=
  mkState (products s) (orders s) (payments s) cs (emailQueue s).

Definition setEmailQueue (q : Queue.t) (s : State) : State :=
  mkState (products s) (orders s) (payments s) (carts s) q.

(** [.populate('items.productId')]: the product documents are read into
    memory.  Only the ones a line refers to are ever looked at. *)
Definition populate : M unit :=
  fun c => (mkCtx (db c) (products (db c)) (session c), inr ()).

(** [Order.findById(id).populate('items.productId')], without the session *)
Definition Order_findById (id : ObjectId) : M (option Order.t) :=
  populate ;; gets (fun c => orders (db c) !! id).

(** [Cart.findOne({ userId }).populate('items.productId')], without the
    session *)
Definition Cart_findOne (userId : ObjectId) : M (option Cart.t) :=
  populate ;; gets (fun c => carts (db c) !! userId).

(** [order.save()] on a document that was read without the session: the
    write goes to the collection at once. *)
Definition Order_save (id : ObjectId) (order : Order.t) : M unit :=
  fun c => (mkCtx (setOrders (<[id := order]> (orders (db c))) (db c))
                  (docs c) (session c), inr ()).

(** [cart.clearCart()] *)
Definition Cart_clearCart (userId : ObjectId) (cart : Cart.t) : M unit :=
  fun c => (mkCtx (setCarts (<[userId := Cart.clearCart cart]> (carts (db c))) (db c))
                  (docs c) (session c), inr ()).

(** The populated value of a line's [productId]: the document or [null]. *)
Definition populated (productId : ObjectId) : M (option Product.t) :=
  gets (fun c => docs c !! productId).

(** [await product.method(quantity)] on the populated document [product].
    The document in memory takes the assignments of the method in every
    case; the collection takes them when [save()] resolves.  On [null] the
    property read throws. *)
Definition invoke (method : Product.t -> Z -> Product.t * completion)
    (product : ObjectId) (quantity : Z) : M unit :=
  fun c =>
    match docs c !! product with
    | None => (c, inl (TypeError "Cannot read properties of null"))
    | Some this =>
        let '(this, r) := method this quantity in
        let docs' := <[product := this]> (docs c) in
        match r with
        | Saved =>
            (mkCtx (setProducts (<[product := this]> (products (db c))) (db c))
                   docs' (session c), inr ())
        | Threw e => (mkCtx (db c) docs' (session c), inl e)
        end
    end.

(** [Payment.create([doc], { session })]; [transactionId] is [unique]. *)
Definition Payment_create (doc : Payment.t) : M Payment.t :=
  fun c =>
    let sessionPayments :=
      omap (fun w => match w with InsertPayment p => Some p | _ => None end)
           (session c) in
    if existsb (fun p => bool_decide (Payment.transactionId p = Payment.transactionId doc))
               (payments (db c) ++ sessionPayments)
    then (c, inl (MongoServerError 11000))
    else (mkCtx (db c) (docs c) (session c ++ [InsertPayment doc]), inr doc).

(** [Order.create([doc], { session })]: the document gets a new [_id]. *)
Definition Order_create (doc : Order.t) : M (ObjectId * Order.t) :=
  fun c =>
    let _id := fresh (dom (orders (db c))) in
    (mkCtx (db c) (docs c) (session c ++ [InsertOrder _id doc]), inr (_id, doc)).

(** [emailQueue.add(name, data)] *)
Definition emailQueue_add (job : Queue.Job) : M unit :=
  fun c =>
    let q := emailQueue (db c) in
    if Queue.reachable q then
      (mkCtx (setEmailQueue (Queue.mk true (Queue.jobs q ++ [job])) (db c))
             (docs c) (session c), inr ())
    else (c, inl (QueueError "Connection is closed.")).

Definition commit (w : SessionWrite) (s : State) : State :=
  match w with
  | InsertOrder _id doc => setOrders (<[_id := doc]> (orders s)) s
  | InsertPayment doc => setPayments (payments s ++ [doc]) s
  end.

(** [session.withTransaction(async () => { body })].  When [body] returns,
    the writes of the session are committed; when it throws, they are
    aborted and the exception is thrown on.  Writes that were not handed
    the session are not part of the transaction and stay as they are. *)
Definition endTransaction {A : Type} (r : Ctx * (exn + A)) : State * (exn + A) :=
  match r with
  | (c, inr a) => (foldl (fun s w => commit w s) (db c) (session c), inr a)
  | (c, inl e) => (db c, inl e)
  end.

Definition withTransaction {A : Type} (body : M A) (s : State) : State * (exn + A) :=
  endTransaction (body (mkCtx s ∅ [])).

(** ** routes/orders.js *)

(** The body of the loop of [POST /checkout] over [cart.items], with the
    two accumulators [orderItems] and [totalAmount]. *)
Fixpoint checkoutItems (cartItems : list Cart.Item)
    (orderItems : list Order.Item) (totalAmount : N) : M (list Order.Item * N) :=
  match cartItems with
  | [] => mret (orderItems, totalAmount)
  | cartItem :: cartItems =>
      product ← populated (Cart.productId cartItem) ;
      match product with
      | None => throw (AppError "Product null not found" 404)
      | Some product =>
          if Product.availableStock product <? Z.pos (Cart.quantity cartItem) then
            throw (AppError ("Insufficient stock for product " +:+ Product.name product) 400)
          else
            invoke Product.reserveStock (Cart.productId cartItem)
                   (Z.pos (Cart.quantity cartItem)) ;;
            checkoutItems cartItems
              (orderItems ++ [Order.mkItem (Cart.productId cartItem)
                                           (Cart.quantity cartItem)
                                           (Product.price product)])
              (totalAmount + Product.price product * N.pos (Cart.quantity cartItem))%N
      end
  end.

(** [POST /api/orders/checkout] for the authenticated [user]. *)
Definition checkout (now : Z) (user : User.t) :
    State -> State * (exn + (ObjectId * Order.t)) :=
  withTransaction (
    cart ← Cart_findOne (User._id user) ;
    match cart with
    | None => throw (AppError "Cart is empty" 400)
    | Some cart =>
        if (length (Cart.items cart) =? 0)%nat then
          throw (AppError "Cart is empty" 400)
        else
          '(orderItems, totalAmount) ← checkoutItems (Cart.items cart) [] 0%N ;
          order ← Order_create (Order.mk (User._id user) orderItems totalAmount
                                         Order.PENDING_PAYMENT
                                         (Order.defaultPaymentDeadline now)) ;
          Cart_clearCart (User._id user) cart ;;
          mret order
    end).

Definition releaseLine (orderItem : Order.Item) : M unit :=
  invoke Product.releaseReservedStock (Order.productId orderItem)
         (Z.pos (Order.quantity orderItem)).

Definition confirmLine (orderItem : Order.Item) : M unit :=
  invoke Product.confirmStockDeduction (Order.productId orderItem)
         (Z.pos (Order.quantity orderItem)).

Definition OrderExpired : exn :=
  AppError "Order has expired. Please create a new order." 400.

(** [POST /api/orders/:id/pay] for the authenticated [user].
    [transactionId] is the identifier drawn from the clock and
    [Math.random]. *)
Definition pay (now : Z) (transactionId : string) (user : User.t) (id : ObjectId) :
    State -> State * (exn + (Order.t * Payment.t)) :=
  withTransaction (
    order ← Order_findById id ;
    match order with
    | None => throw (AppError "Order not found" 404)
    | Some order =>
        if negb (bool_decide (Order.userId order = User._id user)) then
          throw (AppError "Unauthorized access to order" 403)
        else if negb (bool_decide (Order.status order = Order.PENDING_PAYMENT)) then
          throw (AppError "Order is not in pending payment status" 400)
        else if Order.isExpired now order then
          let order := Order.setStatus Order.CANCELLED order in
          Order_save id order ;;
          forEach releaseLine (Order.items order) ;;
          throw OrderExpired
        else
          payment ← Payment_create (Payment.mk id transactionId
                                      (Order.totalAmount order)
                                      Payment.SUCCESS "MOCK_PAYMENT") ;
          let order := Order.setStatus Order.PAID order in
          Order_save id order ;;
          forEach confirmLine (Order.items order) ;;
          emailQueue_add (Queue.mkJob "send-confirmation-email" id (User._id user)
                                      (User.email user) (Order.totalAmount order)) ;;
          mret (order, payment)
    end).

(** ** utils/orderTimeout.js *)

(** The query [{ status: 'PENDING_PAYMENT', paymentDeadline: { $lt: now } }] *)
Definition expiredQuery (now : Z) (order : Order.t) : bool :=
  bool_decide (Order.status order = Order.PENDING_PAYMENT) &&
  (Order.paymentDeadline order <? now).

(** The inner loop of the sweep: [if (product) { release }]. *)
Definition releaseLineIfProduct (orderItem : Order.Item) : M unit :=
  product ← populated (Order.productId orderItem) ;
  match product with
  | Some _ => releaseLine orderItem
  | None => mret ()
  end.

(** The body of the sweep's loop over the expired orders, with its own
    [try]/[catch]: the error is logged and the loop goes on. *)
Definition cancelExpiredOrder (expired : ObjectId * Order.t) : M unit :=
  let '(id, order) := expired in
  try_catch (
    let order := Order.setStatus Order.CANCELLED order in
    Order_save id order ;;
    forEach releaseLineIfProduct (Order.items order))
  (fun error => mret ()).

(** [cancelExpiredOrders]: both exits of the function, the early [return;]
    and the end of the body, yield [undefined].  Every error of the loop is
    caught inside it, so that the outer [catch] has nothing to do. *)
Definition cancelExpiredOrders (now : Z) (s : State) : State * JsValue :=
  let expiredOrders :=
    filter (fun o => expiredQuery now o.2 = true) (map_to_list (orders s)) in
  if (length expiredOrders =? 0)%nat then (s, undefined)
  else
    let '(c, _) := (populate ;; forEach cancelExpiredOrder expiredOrders)
                     (mkCtx s ∅ []) in
    (db c, undefined).

(** ** routes/products.js *)

(** The handlers below are given the request as the validation middleware
    passed it on.  Each returns the collections after the request and the
    document of the response, or the exception it throws. *)

(** [POST /api/products]: [Product.create] with [availableStock: stock] and
    [reservedStock: 0]; the validators are those of [save()]. *)
Definition createProduct (name : string) (price : N) (stock : Z) (s : State) :
    State * (exn + (ObjectId * Product.t)) :=
  match Product.save (Product.mk name price stock stock 0) with
  | (product, Saved) =>
      let _id := fresh (dom (products s)) in
      (setProducts (<[_id := product]> (products s)) s, inr (_id, product))
  | (_, Threw e) => (s, inl e)
  end.

(** [PUT /api/products/:id].  A field that is absent from the body is
    [None].  [if (name)] and [if (price)] test for a truthy value: the empty
    string and the number zero are skipped, while [stock !== undefined]
    lets every number through. *)
Definition updateProduct (id : ObjectId) (name : option string) (price : option N)
    (stock : option Z) (s : State) : State * (exn + Product.t) :=
  match products s !! id with
  | None => (s, inl (AppError "Product not found" 404))
  | Some product =>
      let product :=
        match name with
        | Some name =>
            if bool_decide (name = ""%string) then product
            else Product.mk name (Product.price product) (Product.stock product)
                            (Product.availableStock product) (Product.reservedStock product)
        | None => product
        end in
      let product :=
        match price with
        | Some price =>
            if (price =? 0)%N then product
            else Product.mk (Product.name product) price (Product.stock product)
                            (Product.availableStock product) (Product.reservedStock product)
        | None => product
        end in
      let product :=
        match stock with
        | Some stock =>
            let stockDifference := stock - Product.stock product in
            Product.mk (Product.name product) (Product.price product) stock
                       (Product.availableStock product + stockDifference)
                       (Product.reservedStock product)
        | None => product
        end in
      match Product.save product with
      | (product, Saved) => (setProducts (<[id := product]> (products s)) s, inr product)
      | (_, Threw e) => (s, inl e)
      end
  end.

(** [DELETE /api/products/:id] *)
Definition deleteProduct (id : ObjectId) (s : State) : State * (exn + unit) :=
  match products s !! id with
  | None => (s, inl (AppError "Product not found" 404))
  | Some _ => (setProducts (delete id (products s)) s, inr ())
  end.

(** ** routes/cart.js *)

(** [Cart.findOne({ userId })], and [Cart.create({ userId, items: [] })]
    when there is none. *)
Definition Cart_findOrCreate (userId : ObjectId) (s : State) : State * Cart.t :=
  match carts s !! userId with
  | Some cart => (s, cart)
  | None => (setCarts (<[userId := Cart.mk []]> (carts s)) s, Cart.mk [])
  end.

(** [GET /api/cart] *)
Definition getCart (user : User.t) (s : State) : State * (exn + Cart.t) :=
  let '(s, cart) := Cart_findOrCreate (User._id user) s in (s, inr cart).

(** [POST /api/cart/items], behind [validate(cartItemSchema)]: the quantity
    is an integer of at least one. *)
Definition addCartItem (user : User.t) (productId : ObjectId) (quantity : positive)
    (s : State) : State * (exn + Cart.t) :=
  match products s !! productId with
  | None => (s, inl (AppError "Product not found" 404))
  | Some product =>
      if Product.availableStock product <? Z.pos quantity then
        (s, inl (AppError "Insufficient stock available" 400))
      else
        let '(s, cart) := Cart_findOrCreate (User._id user) s in
        match Cart.addItem cart productId (Z.pos quantity) with
        | inl e => (s, inl e)
        | inr cart => (setCarts (<[User._id user := cart]> (carts s)) s, inr cart)
        end
  end.

(** [PUT /api/cart/items/:productId]; no schema guards this route, the
    quantity is any integer. *)
Definition updateCartItem (user : User.t) (productId : ObjectId) (quantity : Z)
    (s : State) : State * (exn + Cart.t) :=
  if (quantity =? 0) || (quantity <? 0) then
    (s, inl (AppError "Quantity must be a positive number" 400))
  else
    match products s !! productId with
    | None => (s, inl (AppError "Product not found" 404))
    | Some product =>
        match carts s !! User._id user with
        | None => (s, inl (AppError "Cart not found" 404))
        | Some cart =>
            let refused :=
              match Cart.findItem productId (Cart.items cart) with
              | Some existingItem =>
                  (Z.pos (Cart.quantity existingItem) <? quantity) &&
                  (let additionalQuantity := quantity - Z.pos (Cart.quantity existingItem) in
                   Product.availableStock product <? additionalQuantity)
              | None => false
              end in
            if refused then (s, inl (AppError "Insufficient stock available" 400))
            else
              match Cart.updateItemQuantity cart productId quantity with
              | inl e => (s, inl e)
              | inr cart => (setCarts (<[User._id user := cart]> (carts s)) s, inr cart)
              end
        end
    end.

(** [DELETE /api/cart/items/:productId] *)
Definition removeCartItem (user : User.t) (productId : ObjectId) (s : State) :
    State * (exn + Cart.t) :=
  match carts s !! User._id user with
  | None => (s, inl (AppError "Cart not found" 404))
  | Some cart =>
      let cart := Cart.removeItem cart productId in
      (setCarts (<[User._id user := cart]> (carts s)) s, inr cart)
  end.

(** [DELETE /api/cart] *)
Definition clearCartRoute (user : User.t) (s : State) : State * (exn + Cart.t) :=
  match carts s !! User._id user with
  | None => (s, inl (AppError "Cart not found" 404))
  | Some cart =>
      let cart := Cart.clearCart cart in
      (setCarts (<[User._id user := cart]> (carts s)) s, inr cart)
  end.

(** ** routes/orders.js and routes/admin.js: reading and the status *)

(** [GET /api/orders/:id] *)
Definition getOrder (user : User.t) (id : ObjectId) (s : State) : exn + Order.t :=
  match orders s !! id with
  | None => inl (AppError "Order not found" 404)
  | Some order =>
      if negb (bool_decide (Order.userId order = User._id user)) then
        inl (AppError "Unauthorized access to order" 403)
      else inr order
  end.

(** [PATCH /api/admin/orders/:id/status], behind [validate(orderStatusSchema)]:
    the status is one of the enum. *)
Definition adminUpdateStatus (id : ObjectId) (status : Order.Status) (s : State) :
    State * (exn + Order.t) :=
  match orders s !! id with
  | None => (s, inl (AppError "Order not found" 404))
  | Some order =>
      match Order.updateStatus order status with
      | (order, Saved) => (setOrders (<[id := order]> (orders s)) s, inr order)
      | (_, Threw e) => (s, inl e)
      end
  end.

(** The pagination of the four list routes, on the sorted result of the
    query: [.skip((page - 1) * limit).limit(limit)] and the block computed
    from [countDocuments] with [Math.ceil(total / limit)]. *)
Record Pagination : Type := mkPagination {
  currentPage : nat;
  totalPages : nat;
  totalDocuments : nat;
  hasNext : bool;
  hasPrev : bool
}.

Definition ceilDiv (total limit : nat) : nat :=
  (total / limit + (if (total mod limit =? 0)%nat then 0 else 1))%nat.

Definition paginate {A : Type} (sorted : list A) (page limit : nat) :
    list A * Pagination :=
  let skip := ((page - 1) * limit)%nat in
  let total := length sorted in
  (take limit (drop skip sorted),
   mkPagination page (ceilDiv total limit) total
                (page <? ceilDiv total limit)%nat (1 <? page)%nat).

(** ** The requests *)

(** The requests of the routes above and the run of the sweep, each with
    what the handler is given; [handle] is the state a request leaves. *)
Inductive Request : Type :=
  | CreateProduct (name : string) (price : N) (stock : Z)
  | UpdateProduct (id : ObjectId) (name : option string) (price : option N)
                  (stock : option Z)
  | DeleteProduct (id : ObjectId)
  | GetCart (user : User.t)
  | AddCartItem (user : User.t) (productId : ObjectId) (quantity : positive)
  | UpdateCartItem (user : User.t) (productId : ObjectId) (quantity : Z)
  | RemoveCartItem (user : User.t) (productId : ObjectId)
  | ClearCart (user : User.t)
  | Checkout (now : Z) (user : User.t)
  | Pay (now : Z) (transactionId : string) (user : User.t) (id : ObjectId)
  | AdminUpdateStatus (id : ObjectId) (status : Order.Status)
  | CancelExpiredOrders (now : Z).

Definition handle (r : Request) (s : State) : State :=
  match r with
  | CreateProduct name price stock => (createProduct name price stock s).1
  | UpdateProduct id name price stock => (updateProduct id name price stock s).1
  | DeleteProduct id => (deleteProduct id s).1
  | GetCart user => (getCart user s).1
  | AddCartItem user productId quantity => (addCartItem user productId quantity s).1
  | UpdateCartItem user productId quantity => (updateCartItem user productId quantity s).1
  | RemoveCartItem user productId => (removeCartItem user productId s).1
  | ClearCart user => (clearCartRoute user s).1
  | Checkout now user => (checkout now user s).1
  | Pay now transactionId user id => (pay now transactionId user id s).1
  | AdminUpdateStatus id status => (adminUpdateStatus id status s).1
  | CancelExpiredOrders now => (cancelExpiredOrders now s).1
  end.

Definition handleAll (rs : list Request) (s : State) : State :=
  foldl (fun s r => handle r s) s rs.

Definition emptyState : State := mkState ∅ ∅ [] ∅ (Queue.mk true []).

(** ** Vocabulary of the statements *)

(** The allowed-transition table as the specification words it. *)
Definition allowedTransition (current target : Order.Status) : bool :=
  match current, target with
  | Order.PENDING_PAYMENT, Order.PAID
  | Order.PENDING_PAYMENT, Order.CANCELLED
  | Order.PAID, Order.SHIPPED
  | Order.PAID, Order.CANCELLED
  | Order.SHIPPED, Order.DELIVERED => true
  | _, _ => false
  end.

(** The specification's [InvalidTransition] failure, as the code throws it. *)
Definition InvalidTransition (current target : Order.Status) : exn :=
  Error ("Invalid status transition from " +:+ Order.statusName current +:+
         " to " +:+ Order.statusName target).

(** The quantity that the lines of an order hold of one product. *)
Definition heldBy (items : list Order.Item) (product : ObjectId) : Z :=
  foldr (fun item held =>
           if decide (Order.productId item = product)
           then Z.pos (Order.quantity item) + held else held)
        0 items.

(** A product record after [q] units went from reserved back to available,
    and after [q] reserved units were deducted for good. *)
Definition movedBack (q : Z) (p : Product.t) : Product.t :=
  Product.mk (Product.name p) (Product.price p) (Product.stock p)
             (Product.availableStock p + q) (Product.reservedStock p - q).

Definition deducted (q : Z) (p : Product.t) : Product.t :=
  Product.mk (Product.name p) (Product.price p) (Product.stock p - q)
             (Product.availableStock p) (Product.reservedStock p - q).

(** The orders that a run of the sweep found expired and that are
    [CANCELLED] in the state [after] the run. *)
Definition ordersCancelledInRun (now : Z) (before after : State) : nat :=
  length (filter (fun o => expiredQuery now o.2 = true /\
                           Order.status <$> orders after !! o.1 = Some Order.CANCELLED)
                 (map_to_list (orders before))).

(** A step of a handler that writes nothing but product documents: the
    other collections, the queue and the session are as before, and no
    populated reference changes between a document and [null]. *)
Definition onlyProducts (c c' : Ctx) : Prop :=
  orders (db c') = orders (db c) /\
  payments (db c') = payments (db c) /\
  carts (db c') = carts (db c) /\
  emailQueue (db c') = emailQueue (db c) /\
  session c' = session c /\
  (forall product, docs c' !! product = None <-> docs c !! product = None).

(** What a loop over the lines of an order needs of a product for the whole
    quantity [q] that the lines hold of it: to release it, non-negative
    counters and a reserved stock that covers [q]; to confirm it, I1 as
    well. *)
Definition releasable (q : Z) (p : Product.t) : Prop :=
  Product.nonNegative p /\ q <= Product.reservedStock p.

Definition confirmable (q : Z) (p : Product.t) : Prop :=
  Product.nonNegative p /\ Product.I1 p /\ q <= Product.reservedStock p.

(** An order after a run of the sweep at time [now]. *)
Definition swept (now : Z) (order : Order.t) : Order.t :=
  if expiredQuery now order then Order.setStatus Order.CANCELLED order else order.

(** A product record after [q] available units were reserved. *)
Definition reservedBy (q : Z) (p : Product.t) : Product.t :=
  Product.mk (Product.name p) (Product.price p) (Product.stock p)
             (Product.availableStock p - q) (Product.reservedStock p + q).

(** The reservations [qs] made one after the other on one document, each
    of them saved. *)
Fixpoint reserveAll (this : Product.t) (qs : list Z) : option Product.t :=
  match qs with
  | [] => Some this
  | q :: qs =>
      match Product.reserveStock this q with
      | (this, Saved) => reserveAll this qs
      | (_, Threw _) => None
      end
  end.

(** The status updates [targets] made one after the other on one order,
    each of them saved. *)
Fixpoint updateAll (this : Order.t) (targets : list Order.Status) : option Order.t :=
  match targets with
  | [] => Some this
  | target :: targets =>
      match Order.updateStatus this target with
      | (this, Saved) => updateAll this targets
      | (_, Threw _) => None
      end
  end.

(** How far a status is along the life of an order. *)
Definition progress (s : Order.Status) : nat :=
  match s with
  | Order.PENDING_PAYMENT => 0
  | Order.PAID => 1
  | Order.SHIPPED => 2
  | Order.DELIVERED => 3
  | Order.CANCELLED => 3
  end.

(** The quantity that the lines of a cart hold of one product, and the
    products of the lines. *)
Definition cartQuantity (lines : list Cart.Item) (product : ObjectId) : Z :=
  foldr (fun item held =>
           if decide (Cart.productId item = product)
           then Z.pos (Cart.quantity item) + held else held)
        0 lines.

Definition cartProducts (lines : list Cart.Item) : list ObjectId :=
  Cart.productId <$> lines.

(** The user whose cart a request of the cart routes works on. *)
Definition cartRequestUser (r : Request) : option ObjectId :=
  match r with
  | GetCart user
  | AddCartItem user _ _
  | UpdateCartItem user _ _
  | RemoveCartItem user _
  | ClearCart user => Some (User._id user)
  | _ => None
  end.

(** The lines of a user's cart, none when the user has no cart. *)
Definition cartLines (s : State) (userId : ObjectId) : list Cart.Item :=
  match carts s !! userId with
  | Some cart => Cart.items cart
  | None => []
  end.

(** What the loop of the checkout needs of a product for the whole quantity
    [q] that the cart holds of it. *)
Definition reservable (q : Z) (p : Product.t) : Prop :=
  Product.nonNegative p /\ q <= Product.availableStock p.

(** The line of an order for a line of a cart, with the price of the
    product as the collection [ps] has it, and the amount of an order's
    lines. *)
Definition snapshot (ps : gmap ObjectId Product.t) (cartItem : Cart.Item) : Order.Item :=
  Order.mkItem (Cart.productId cartItem) (Cart.quantity cartItem)
               (default 0%N (Product.price <$> ps !! Cart.productId cartItem)).

Definition orderTotal (lines : list Order.Item) : N :=
  foldr (fun item total =>
           (Order.priceAtPurchase item * N.pos (Order.quantity item) + total)%N)
        0%N lines.

(** The line of a cart that a line of an order was made from. *)
Definition cartLine (item : Order.Item) : Cart.Item :=
  Cart.mkItem (Order.productId item) (Order.quantity item).

(** The collections as the specification wants them at every observable
    state: every product satisfies I1 with non-negative counters, the lines
    of every cart are of distinct products, and every order has lines of
    distinct products whose amounts add up to its total amount. *)
Definition stockSound (s : State) : Prop :=
  forall id p, products s !! id = Some p -> Product.I1 p /\ Product.nonNegative p.



(** The same for what a running handler works on: the documents in memory
    satisfy I1 whether or not their last [save()] went through. *)
Definition ctxSound (c : Ctx) : Prop :=
  stockSound (db c) /\ (forall id p, docs c !! id = Some p -> Product.I1 p).

(** The lines of the orders that the sweep finds at time [now], in the
    order in which it processes them. *)
Definition expiredLines (now : Z) (s : State) : list Order.Item :=
  flat_map (fun o => Order.items o.2)
           (filter (fun o => expiredQuery now o.2 = true) (map_to_list (orders s))).

(** A step of a handler that keeps what it works on sound. *)
Definition keeps {A : Type} (m : M A) : Prop :=
  forall c, ctxSound c -> ctxSound (m c).1.

(** The three methods of the ledger, as [invoke] is given them. *)
Definition ledgerMethod (method : Product.t -> Z -> Product.t * completion) : Prop :=
  method = Product.reserveStock \/
  method = Product.releaseReservedStock \/
  method = Product.confirmStockDeduction.

(** What one request may do to an order: nothing, or one arrow of the
    transition table on its status. *)
Definition oneArrow (order order' : Order.t) : Prop :=
  order' = order \/
  exists target, allowedTransition (Order.status order) target = true /\
                 order' = Order.setStatus target order.


(** The books of the shop: the confirmation jobs handed to the queue are
    those of the stored payments, in the same order; no order has two
    payments; and every payment is of an order that has left
    [PENDING_PAYMENT], for the order's total amount. *)
Definition paymentKey (p : Payment.t) : ObjectId * N :=
  (Payment.orderId p, Payment.amount p).

Definition jobKey (j : Queue.Job) : ObjectId * N :=
  (Queue.orderId j, Queue.totalAmount j).

Definition booksSound (s : State) : Prop :=
  paymentKey <$> payments s = jobKey <$> Queue.jobs (emailQueue s) /\
  NoDup (Payment.orderId <$> payments s) /\
  forall p, p ∈ payments s ->
    exists order, orders s !! Payment.orderId p = Some order /\
                  Order.status order <> Order.PENDING_PAYMENT /\
                  Payment.amount p = Order.totalAmount order.

(** ** Sample states *)

Definition alice : User.t := User.mk 1 "alice@example.com".

Definition keyboard : Product.t := Product.mk "Keyboard" 4999%N 10 7 3.
Definition mouse : Product.t := Product.mk "Mouse" 1999%N 5 3 2.
Definition webcam : Product.t := Product.mk "Webcam" 2999%N 4 0 4.

Definition noQueue : Queue.t := Queue.mk false [].
Definition idleQueue : Queue.t := Queue.mk true [].

(** Alice's cart holds two keyboards (product 10, seven available) and one
    webcam (product 12, none available). *)
Definition cartWithSoldOutLine : State :=
  mkState (<[10%nat := keyboard]> (<[12%nat := webcam]> ∅)) ∅ []
          (<[1%nat := Cart.mk [Cart.mkItem 10 2; Cart.mkItem 12 1]]> ∅)
          idleQueue.

(** Alice's cart holds two keyboards and one mouse (product 11, three
    available). *)
Definition cartInStock : State :=
  mkState (<[10%nat := keyboard]> (<[11%nat := mouse]> ∅)) ∅ []
          (<[1%nat := Cart.mk [Cart.mkItem 10 2; Cart.mkItem 11 1]]> ∅)
          idleQueue.

(** Alice's order 20 holds one keyboard and two mice, with the payment
    deadline at time 900000; both products carry the reservation. *)
Definition aliceOrder : Order.t :=
  Order.mk 1 [Order.mkItem 10 1 4999; Order.mkItem 11 2 1999] 8997
           Order.PENDING_PAYMENT 900000.

Definition shop (q : Queue.t) : State :=
  mkState (<[10%nat := keyboard]> (<[11%nat := mouse]> ∅))
          (<[20%nat := aliceOrder]> ∅) [] ∅ q.

(** The shop when the mouse holds one reserved unit only, one less than
    the order holds of it. *)
Definition shopUnderReserved : State :=
  mkState (<[10%nat := keyboard]> (<[11%nat := Product.mk "Mouse" 1999%N 5 4 1]> ∅))
          (<[20%nat := aliceOrder]> ∅) [] ∅ idleQueue.

(** The same order after the mouse (product 11) was deleted from the
    catalogue; its line comes first. *)
Definition orderWithDeletedProduct : Order.t :=
  Order.mk 1 [Order.mkItem 11 2 1999; Order.mkItem 10 1 4999] 8997
           Order.PENDING_PAYMENT 900000.

Definition shopAfterDelete : State :=
  mkState (<[10%nat := keyboard]> ∅)
          (<[20%nat := orderWithDeletedProduct]> ∅) [] ∅ idleQueue.

(** * The stock ledger *)

Section ledger.

Implicit Types (this : Product.t) (quantity : Z).

Lemma validate_nil this :
  Product.validate this = [] <-> Product.nonNegative this.
Proof.
  unfold Product.validate, Product.nonNegative.
  destruct (Z.ltb_spec (Product.stock this) 0),
           (Z.ltb_spec (Product.availableStock this) 0),
           (Z.ltb_spec (Product.reservedStock this) 0);
    simpl; split; intros H'; try discriminate; try reflexivity; lia.
Qed.

Lemma save_nonNegative this :
  Product.nonNegative this -> Product.save this = (this, Saved).
Proof.
  intros H. unfold Product.save. apply validate_nil in H. now rewrite H.
Qed.

Lemma save_Saved this this' :
  Product.save this = (this', Saved) -> this' = this /\ Product.nonNegative this.
Proof.
  unfold Product.save. destruct (Product.validate this) eqn:E.
  - intros [= <-]. split; [reflexivity | now apply validate_nil].
  - discriminate.
Qed.

Lemma save_fst this : (Product.save this).1 = this.
Proof. unfold Product.save. now destruct (Product.validate this). Qed.

(** C3.  From a product record that satisfies
    [stock = availableStock + reservedStock] with the three counters
    non-negative, each of [reserveStock], [releaseReservedStock] and
    [confirmStockDeduction], when it is saved, leaves a record that again
    satisfies the equation with the three counters non-negative. *)
Theorem ledger_preserves_I1
    (method : Product.t -> Z -> Product.t * completion) this this' quantity :
  method ∈ [Product.reserveStock; Product.releaseReservedStock;
            Product.confirmStockDeduction] ->
  Product.I1 this ->
  Product.nonNegative this ->
  method this quantity = (this', Saved) ->
  Product.I1 this' /\ Product.nonNegative this'.
Proof.
  intros Hm HI Hn.
  rewrite !elem_of_cons, elem_of_nil in Hm.
  destruct Hm as [-> | [-> | [-> | []]]].
  - unfold Product.reserveStock.
    destruct (Z.ltb_spec (Product.availableStock this) quantity); [discriminate |].
    intros [-> Hs]%save_Saved. split; [| exact Hs].
    unfold Product.I1 in *; simpl. lia.
  - unfold Product.releaseReservedStock.
    destruct (Z.ltb_spec (Product.reservedStock this) quantity); [discriminate |].
    intros [-> Hs]%save_Saved. split; [| exact Hs].
    unfold Product.I1 in *; simpl. lia.
  - unfold Product.confirmStockDeduction.
    destruct (Z.ltb_spec (Product.reservedStock this) quantity); [discriminate |].
    intros [-> Hs]%save_Saved. split; [| exact Hs].
    unfold Product.I1 in *; simpl. lia.
Qed.

Lemma ledger_preserves_I1_witness :
  Product.I1 (Product.mk "Keyboard" 4999%N 10 5 5) /\
  Product.nonNegative (Product.mk "Keyboard" 4999%N 10 5 5).
Proof.
  apply (ledger_preserves_I1 Product.reserveStock
           (Product.mk "Keyboard" 4999%N 10 7 3) _ 2); try reflexivity.
  - apply list_elem_of_here.
  - unfold Product.nonNegative; simpl; lia.
Defined.

(** C8.  On a product record with non-negative counters and for a quantity
    [q] that the available stock covers, [reserveStock q] followed by
    [releaseReservedStock q] on the same document saves exactly the record
    from before the reservation; and the reservation itself is saved
    whenever [q] is not negative. *)
Theorem reserve_then_release_restores this q :
  Product.nonNegative this ->
  q <= Product.availableStock this ->
  Product.releaseReservedStock (Product.reserveStock this q).1 q = (this, Saved) /\
  (0 <= q -> (Product.reserveStock this q).2 = Saved).
Proof.
  intros Hn Hq. unfold Product.reserveStock.
  destruct (Z.ltb_spec (Product.availableStock this) q) as [Hlt | _]; [lia |].
  rewrite save_fst. split.
  - unfold Product.releaseReservedStock; simpl.
    destruct (Z.ltb_spec (Product.reservedStock this + q) q) as [Hlt | _].
    + destruct Hn as (_ & _ & Hr). lia.
    + replace (Product.reservedStock this + q - q) with (Product.reservedStock this) by lia.
      replace (Product.availableStock this - q + q) with (Product.availableStock this) by lia.
      destruct this; simpl. now apply save_nonNegative.
  - intros H0. rewrite save_nonNegative; [reflexivity |].
    destruct Hn as (Hs & Ha & Hr). unfold Product.nonNegative; simpl. lia.
Qed.

Lemma reserve_then_release_restores_witness :
  Product.releaseReservedStock
    (Product.reserveStock (Product.mk "Keyboard" 4999%N 10 7 3) 4).1 4
  = (Product.mk "Keyboard" 4999%N 10 7 3, Saved) /\
  (0 <= 4 -> (Product.reserveStock (Product.mk "Keyboard" 4999%N 10 7 3) 4).2 = Saved).
Proof.
  apply (reserve_then_release_restores (Product.mk "Keyboard" 4999%N 10 7 3) 4).
  - unfold Product.nonNegative; simpl; lia.
  - simpl; lia.
Defined.

(** C9.  On a product record whose reserved stock covers [q],
    [confirmStockDeduction q] takes [q] off [stock], takes [q] off
    [reservedStock] and leaves [availableStock] as it is; the document is
    saved whenever the record satisfied I1 with a non-negative available
    stock. *)
Theorem confirm_reduces_total_not_available this q :
  q <= Product.reservedStock this ->
  exists this' c,
    Product.confirmStockDeduction this q = (this', c) /\
    Product.stock this' = Product.stock this - q /\
    Product.reservedStock this' = Product.reservedStock this - q /\
    Product.availableStock this' = Product.availableStock this /\
    (Product.I1 this -> 0 <= Product.availableStock this -> c = Saved).
Proof.
  intros Hq. unfold Product.confirmStockDeduction.
  destruct (Z.ltb_spec (Product.reservedStock this) q) as [Hlt | _]; [lia |].
  simpl.
  eexists _, _. split; [apply surjective_pairing |].
  rewrite save_fst. simpl. repeat split.
  intros HI Ha. rewrite save_nonNegative; [reflexivity |].
  unfold Product.I1 in HI. unfold Product.nonNegative; simpl. lia.
Qed.

Lemma confirm_reduces_total_not_available_witness :
  exists this' c,
    Product.confirmStockDeduction (Product.mk "Keyboard" 4999%N 10 7 3) 2 = (this', c) /\
    Product.stock this' = 10 - 2 /\
    Product.reservedStock this' = 3 - 2 /\
    Product.availableStock this' = 7 /\
    (Product.I1 (Product.mk "Keyboard" 4999%N 10 7 3) -> 0 <= 7 -> c = Saved).
Proof.
  apply (confirm_reduces_total_not_available (Product.mk "Keyboard" 4999%N 10 7 3) 2).
  simpl; lia.
Defined.

End ledger.

(** * The order state machine *)

(** C5.  [updateStatus] succeeds and sets the status to the target exactly
    on the pairs of the allowed-transition table, and on every other pair it
    throws the invalid-transition error and leaves the order as it was; a
    transition from a status to itself is always refused. *)
Theorem updateStatus_follows_table (this : Order.t) (target : Order.Status) :
  Order.updateStatus this target =
    (if allowedTransition (Order.status this) target
     then (Order.setStatus target this, Saved)
     else (this, Threw (InvalidTransition (Order.status this) target))) /\
  Order.status (Order.updateStatus this target).1 =
    (if allowedTransition (Order.status this) target
     then target else Order.status this) /\
  Order.updateStatus this (Order.status this) =
    (this, Threw (InvalidTransition (Order.status this) (Order.status this))).
Proof.
  unfold Order.updateStatus, InvalidTransition.
  destruct this as [u i a s d]; simpl.
  destruct s, target; simpl; repeat split; reflexivity.
Qed.

(** * The handlers *)

Section monad.

Context {A B : Type}.

Lemma bind_run (m : M A) (k : A -> M B) (c : Ctx) :
  (m ≫= k) c =
    match m c with
    | (c', inr x) => k x c'
    | (c', inl e) => (c', inl e)
    end.
Proof. reflexivity. Qed.

Lemma bind_throws (m : M A) (k : A -> M B) (c c' : Ctx) (e : exn) :
  m c = (c', inl e) -> (m ≫= k) c = (c', inl e).
Proof. intros H. now rewrite bind_run, H. Qed.

Lemma bind_returns (m : M A) (k : A -> M B) (c c' : Ctx) (x : A) :
  m c = (c', inr x) -> (m ≫= k) c = k x c'.
Proof. intros H. now rewrite bind_run, H. Qed.

End monad.

Lemma forEach_cons {A : Type} (f : A -> M unit) (x : A) (l : list A) (c : Ctx) :
  forEach f (x :: l) c =
    match f x c with
    | (c', inr _) => forEach f l c'
    | (c', inl e) => (c', inl e)
    end.
Proof. reflexivity. Qed.

Lemma onlyProducts_refl (c : Ctx) : onlyProducts c c.
Proof. unfold onlyProducts. tauto. Qed.

Lemma onlyProducts_trans (c1 c2 c3 : Ctx) :
  onlyProducts c1 c2 -> onlyProducts c2 c3 -> onlyProducts c1 c3.
Proof.
  unfold onlyProducts.
  intros (Ho & Hp & Hc & Hq & Hs & Hd) (Ho' & Hp' & Hc' & Hq' & Hs' & Hd').
  repeat split; try congruence.
  - intros H. now apply Hd, Hd'.
  - intros H. now apply Hd', Hd.
Qed.

Lemma invoke_onlyProducts method product quantity (c c' : Ctx) (r : exn + unit) :
  invoke method product quantity c = (c', r) -> onlyProducts c c'.
Proof.
  unfold invoke. destruct (docs c !! product) as [this |] eqn:E.
  - destruct (method this quantity) as [this' [| e]]; intros [= <- <-];
      unfold onlyProducts; simpl; repeat split; auto;
      destruct (decide (product = product0)) as [<- | Hne];
      rewrite ?lookup_insert_eq, ?lookup_insert_ne by done;
      congruence.
  - intros [= <- <-]. apply onlyProducts_refl.
Qed.

Lemma forEach_onlyProducts {A : Type} (f : A -> M unit) (l : list A) :
  (forall x c c' r, f x c = (c', r) -> onlyProducts c c') ->
  forall c c' r, forEach f l c = (c', r) -> onlyProducts c c'.
Proof.
  intros Hf. induction l as [| x l IH]; intros c c' r.
  - intros [= <- <-]. apply onlyProducts_refl.
  - rewrite forEach_cons. destruct (f x c) as [c1 [e | []]] eqn:E.
    + intros [= <- <-]. eapply Hf, E.
    + intros H. eapply onlyProducts_trans; [eapply Hf, E | eapply IH, H].
Qed.

Lemma heldBy_nonneg items product : 0 <= heldBy items product.
Proof.
  induction items as [| item items IH]; simpl; [lia |].
  destruct (decide _); lia.
Qed.

Lemma heldBy_cons_eq item items :
  heldBy (item :: items) (Order.productId item) =
    Z.pos (Order.quantity item) + heldBy items (Order.productId item).
Proof. simpl. now rewrite decide_True. Qed.

Lemma heldBy_cons_ne item items product :
  Order.productId item <> product ->
  heldBy (item :: items) product = heldBy items product.
Proof. intros H. simpl. now rewrite decide_False. Qed.

(** A loop that calls one ledger method on every line of an order, seen
    from the side of the products: when each product is ready for the whole
    quantity that the lines hold of it, the loop runs to its end and each
    product has taken the effect of that whole quantity. *)
Section line_loop.

Variable method : Product.t -> Z -> Product.t * completion.
Variable effect : Z -> Product.t -> Product.t.
Variable ready : Z -> Product.t -> Prop.
Variable line : Order.Item -> M unit.

Hypothesis line_invokes : forall item,
  line item = invoke method (Order.productId item) (Z.pos (Order.quantity item)).
Hypothesis method_ready : forall p q,
  0 < q -> ready q p -> method p q = (effect q p, Saved).
Hypothesis ready_split : forall p q r,
  0 < q -> 0 <= r -> ready (q + r) p -> ready q p /\ ready r (effect q p).
Hypothesis effect_add : forall p q r, effect r (effect q p) = effect (q + r) p.
Hypothesis effect_0 : forall p, effect 0 p = p.

Lemma forEach_lines_ready items : forall c,
  docs c = products (db c) ->
  (forall product, 0 < heldBy items product ->
     exists p, docs c !! product = Some p /\ ready (heldBy items product) p) ->
  exists c',
    forEach line items c = (c', inr ()) /\
    onlyProducts c c' /\
    docs c' = products (db c') /\
    forall product,
      products (db c') !! product =
        effect (heldBy items product) <$> products (db c) !! product.
Proof.
  induction items as [| item items IH]; intros c Hdocs Hready.
  - exists c. split; [reflexivity |]. split; [apply onlyProducts_refl |].
    split; [exact Hdocs |]. intros product. simpl.
    destruct (products (db c) !! product); simpl; [now rewrite effect_0 | reflexivity].
  - set (pid := Order.productId item). set (q := Z.pos (Order.quantity item)).
    assert (Hq : 0 < q) by (unfold q; lia).
    pose proof (heldBy_nonneg items pid) as Hrest.
    destruct (Hready pid) as (p & Hp & Hrp).
    { unfold pid. rewrite heldBy_cons_eq. fold q pid. lia. }
    unfold pid in Hrp. rewrite heldBy_cons_eq in Hrp. fold q pid in Hrp.
    destruct (ready_split p q _ Hq Hrest Hrp) as [Hrq Hrr].
    set (c1 := mkCtx (setProducts (<[pid := effect q p]> (products (db c))) (db c))
                     (<[pid := effect q p]> (docs c)) (session c)).
    assert (Hstep : line item c = (c1, inr ())).
    { rewrite line_invokes. unfold invoke. fold pid q. rewrite Hp.
      now rewrite (method_ready p q Hq Hrq). }
    destruct (IH c1) as (c' & Hrun & Hframe & Hdocs' & Hlook).
    { unfold c1; simpl. now rewrite Hdocs. }
    { intros product Hheld. unfold c1; simpl.
      destruct (decide (pid = product)) as [<- | Hne].
      - exists (effect q p). now rewrite lookup_insert_eq.
      - rewrite lookup_insert_ne by done.
        destruct (Hready product) as (p' & Hp' & Hrp').
        + rewrite heldBy_cons_ne by done. exact Hheld.
        + rewrite heldBy_cons_ne in Hrp' by done. now exists p'. }
    exists c'. split; [| split; [| split]].
    + rewrite forEach_cons, Hstep. exact Hrun.
    + eapply onlyProducts_trans; [| exact Hframe].
      eapply invoke_onlyProducts. rewrite <- line_invokes. exact Hstep.
    + exact Hdocs'.
    + intros product. rewrite Hlook.
      destruct (decide (pid = product)) as [<- | Hne].
      * unfold pid. rewrite heldBy_cons_eq. fold q pid.
        unfold c1; cbn [db products setProducts].
        rewrite lookup_insert_eq. rewrite <- Hdocs, Hp. cbn [fmap option_fmap option_map].
        now rewrite effect_add.
      * rewrite heldBy_cons_ne by done.
        unfold c1; cbn [db products setProducts].
        now rewrite lookup_insert_ne by done.
Qed.

End line_loop.

Lemma movedBack_add p q r : movedBack r (movedBack q p) = movedBack (q + r) p.
Proof. unfold movedBack; simpl. f_equal; lia. Qed.

Lemma movedBack_0 p : movedBack 0 p = p.
Proof. destruct p; unfold movedBack; simpl. f_equal; lia. Qed.

Lemma release_releasable p q :
  0 < q -> releasable q p ->
  Product.releaseReservedStock p q = (movedBack q p, Saved).
Proof.
  intros Hq ((Hs & Ha & Hr) & Hle). unfold Product.releaseReservedStock.
  destruct (Z.ltb_spec (Product.reservedStock p) q) as [Hlt | _]; [lia |].
  apply save_nonNegative. unfold Product.nonNegative; simpl. lia.
Qed.

Lemma releasable_split p q r :
  0 < q -> 0 <= r -> releasable (q + r) p ->
  releasable q p /\ releasable r (movedBack q p).
Proof.
  unfold releasable, Product.nonNegative. simpl. lia.
Qed.

Lemma deducted_add p q r : deducted r (deducted q p) = deducted (q + r) p.
Proof. unfold deducted; simpl. f_equal; lia. Qed.

Lemma deducted_0 p : deducted 0 p = p.
Proof. destruct p; unfold deducted; simpl. f_equal; lia. Qed.

Lemma confirm_confirmable p q :
  0 < q -> confirmable q p ->
  Product.confirmStockDeduction p q = (deducted q p, Saved).
Proof.
  intros Hq ((Hs & Ha & Hr) & HI & Hle). unfold Product.confirmStockDeduction.
  destruct (Z.ltb_spec (Product.reservedStock p) q) as [Hlt | _]; [lia |].
  apply save_nonNegative. unfold Product.I1 in HI.
  unfold Product.nonNegative; simpl. lia.
Qed.

Lemma confirmable_split p q r :
  0 < q -> 0 <= r -> confirmable (q + r) p ->
  confirmable q p /\ confirmable r (deducted q p).
Proof.
  unfold confirmable, Product.nonNegative, Product.I1. simpl. lia.
Qed.

Lemma forEach_releaseLine_releasable items c :
  docs c = products (db c) ->
  (forall product, 0 < heldBy items product ->
     exists p, docs c !! product = Some p /\ releasable (heldBy items product) p) ->
  exists c',
    forEach releaseLine items c = (c', inr ()) /\
    onlyProducts c c' /\
    docs c' = products (db c') /\
    forall product,
      products (db c') !! product =
        movedBack (heldBy items product) <$> products (db c) !! product.
Proof.
  apply (forEach_lines_ready Product.releaseReservedStock movedBack releasable).
  - reflexivity.
  - apply release_releasable.
  - apply releasable_split.
  - apply movedBack_add.
  - apply movedBack_0.
Qed.

Lemma forEach_confirmLine_confirmable items c :
  docs c = products (db c) ->
  (forall product, 0 < heldBy items product ->
     exists p, docs c !! product = Some p /\ confirmable (heldBy items product) p) ->
  exists c',
    forEach confirmLine items c = (c', inr ()) /\
    onlyProducts c c' /\
    docs c' = products (db c') /\
    forall product,
      products (db c') !! product =
        deducted (heldBy items product) <$> products (db c) !! product.
Proof.
  apply (forEach_lines_ready Product.confirmStockDeduction deducted confirmable).
  - reflexivity.
  - apply confirm_confirmable.
  - apply confirmable_split.
  - apply deducted_add.
  - apply deducted_0.
Qed.

(** * Checkout *)

(** C1.  On the cart whose second line has no available stock, [checkout]
    fails with the insufficient-stock error of that line, and the
    reservation of the first line is still applied: the keyboard went from
    seven available and three reserved to five available and five
    reserved. *)
Theorem checkout_failure_keeps_earlier_reservation :
  exists s',
    checkout 0 alice cartWithSoldOutLine
    = (s', inl (AppError "Insufficient stock for product Webcam" 400)) /\
    products cartWithSoldOutLine !! 10%nat = Some (Product.mk "Keyboard" 4999%N 10 7 3) /\
    products s' !! 10%nat = Some (Product.mk "Keyboard" 4999%N 10 5 5) /\
    orders s' = ∅.
Proof.
  eexists. split; [vm_compute; reflexivity |].
  repeat split; reflexivity.
Qed.

(** A checkout that goes through: the order is created in
    [PENDING_PAYMENT] with its deadline fifteen minutes ahead, both lines
    are reserved and the cart is cleared. *)
Example checkout_in_stock :
  exists s' id,
    checkout 0 alice cartInStock
    = (s', inr (id, Order.mk 1 [Order.mkItem 10 2 4999; Order.mkItem 11 1 1999] 11997
                               Order.PENDING_PAYMENT 900000)) /\
    Order.status <$> orders s' !! id = Some Order.PENDING_PAYMENT /\
    products s' !! 10%nat = Some (Product.mk "Keyboard" 4999%N 10 5 5) /\
    products s' !! 11%nat = Some (Product.mk "Mouse" 1999%N 5 2 3) /\
    carts s' !! 1%nat = Some (Cart.mk []).
Proof.
  eexists _, _. split; [vm_compute; reflexivity |].
  repeat split; reflexivity.
Qed.

(** * Payment settlement *)

(** ** The expiry branch *)




(** ** Settlement of a pending order *)

(** [pay] past its checks, on a pending order of the caller that is not
    expired. *)
Lemma pay_pending
    (now : Z) (transactionId : string) (user : User.t) (id : ObjectId)
    (s : State) (order : Order.t) :
  orders s !! id = Some order ->
  Order.userId order = User._id user ->
  Order.status order = Order.PENDING_PAYMENT ->
  now <= Order.paymentDeadline order ->
  pay now transactionId user id s =
    endTransaction (
      (payment ← Payment_create (Payment.mk id transactionId (Order.totalAmount order)
                                            Payment.SUCCESS "MOCK_PAYMENT") ;
       Order_save id (Order.setStatus Order.PAID order) ;;
       forEach confirmLine (Order.items order) ;;
       emailQueue_add (Queue.mkJob "send-confirmation-email" id (User._id user)
                                   (User.email user) (Order.totalAmount order)) ;;
       mret (Order.setStatus Order.PAID order, payment))
      (mkCtx s (products s) [])).
Proof.
  intros Horder Howner Hstatus Hdeadline.
  unfold pay, withTransaction.
  rewrite (bind_returns _ _ _ (mkCtx s (products s) []) (Some order))
    by (unfold Order_findById, populate, gets; rewrite bind_run; simpl; now rewrite Horder).
  rewrite Howner, bool_decide_true by reflexivity.
  rewrite Hstatus, bool_decide_true by reflexivity.
  replace (Order.isExpired now order) with false.
  2:{ unfold Order.isExpired. rewrite Hstatus, bool_decide_true by reflexivity.
      symmetry. apply Z.ltb_ge. exact Hdeadline. }
  reflexivity.
Qed.

Lemma Payment_create_fresh (doc : Payment.t) (c : Ctx) :
  session c = [] ->
  Forall (fun p => Payment.transactionId p <> Payment.transactionId doc) (payments (db c)) ->
  Payment_create doc c = (mkCtx (db c) (docs c) [InsertPayment doc], inr doc).
Proof.
  intros Hs Hfresh. unfold Payment_create. rewrite Hs. simpl. rewrite app_nil_r.
  replace (existsb _ (payments (db c))) with false; [reflexivity |].
  symmetry. induction Hfresh as [| p ps Hp _ IH]; [reflexivity |].
  simpl. now rewrite bool_decide_false, IH by exact Hp.
Qed.

(** [pay] up to and including a rejected enqueue, on a pending order that
    is not expired, with a fresh transaction identifier and with lines
    whose products can be confirmed: the call fails with the queue's error,
    the order is stored as [PAID], the stock of every line is deducted, and
    the payments are as before. *)
Lemma pay_enqueue_rejected
    (now : Z) (transactionId : string) (user : User.t) (id : ObjectId)
    (s : State) (order : Order.t) :
  orders s !! id = Some order ->
  Order.userId order = User._id user ->
  Order.status order = Order.PENDING_PAYMENT ->
  now <= Order.paymentDeadline order ->
  Forall (fun p => Payment.transactionId p <> transactionId) (payments s) ->
  (forall product, 0 < heldBy (Order.items order) product ->
     exists p, products s !! product = Some p /\
               confirmable (heldBy (Order.items order) product) p) ->
  Queue.reachable (emailQueue s) = false ->
  exists s',
    pay now transactionId user id s = (s', inl (QueueError "Connection is closed.")) /\
    orders s' = <[id := Order.setStatus Order.PAID order]> (orders s) /\
    (forall product,
       products s' !! product =
         deducted (heldBy (Order.items order) product) <$> products s !! product) /\
    payments s' = payments s.
Proof.
  intros Horder Howner Hstatus Hdeadline Hfresh Hlines Hqueue.
  set (doc := Payment.mk id transactionId (Order.totalAmount order)
                         Payment.SUCCESS "MOCK_PAYMENT").
  set (c1 := mkCtx (setOrders (<[id := Order.setStatus Order.PAID order]> (orders s)) s)
                   (products s) [InsertPayment doc]).
  destruct (forEach_confirmLine_confirmable (Order.items order) c1)
    as (c' & Hrun & Hframe & _ & Hlook).
  { reflexivity. }
  { exact Hlines. }
  destruct Hframe as (Ho & Hp & _ & Hq & _).
  exists (db c'). split; [| split; [| split]].
  - rewrite (pay_pending now transactionId user id s order Horder Howner Hstatus Hdeadline).
    rewrite (bind_returns _ _ _ (mkCtx s (products s) [InsertPayment doc]) doc)
      by (apply (Payment_create_fresh doc); [reflexivity | exact Hfresh]).
    rewrite (bind_returns _ _ _ c1 ()) by reflexivity.
    rewrite (bind_returns _ _ _ c' ()) by exact Hrun.
    rewrite (bind_throws _ _ _ c' (QueueError "Connection is closed.")); [reflexivity |].
    unfold emailQueue_add. rewrite Hq. unfold c1; simpl. now rewrite Hqueue.
  - exact Ho.
  - exact Hlook.
  - exact Hp.
Qed.

(** [pay] on a pending order that is not expired, with a fresh transaction
    identifier, with lines whose products can be confirmed and with the
    queue in reach: the order is stored as [PAID], the stock of every line
    is deducted, the payment is recorded and the job is queued. *)
Lemma pay_settles
    (now : Z) (transactionId : string) (user : User.t) (id : ObjectId)
    (s : State) (order : Order.t) :
  orders s !! id = Some order ->
  Order.userId order = User._id user ->
  Order.status order = Order.PENDING_PAYMENT ->
  now <= Order.paymentDeadline order ->
  Forall (fun p => Payment.transactionId p <> transactionId) (payments s) ->
  (forall product, 0 < heldBy (Order.items order) product ->
     exists p, products s !! product = Some p /\
               confirmable (heldBy (Order.items order) product) p) ->
  Queue.reachable (emailQueue s) = true ->
  let payment := Payment.mk id transactionId (Order.totalAmount order)
                            Payment.SUCCESS "MOCK_PAYMENT" in
  exists s',
    pay now transactionId user id s
    = (s', inr (Order.setStatus Order.PAID order, payment)) /\
    orders s' = <[id := Order.setStatus Order.PAID order]> (orders s) /\
    (forall product,
       products s' !! product =
         deducted (heldBy (Order.items order) product) <$> products s !! product) /\
    payments s' = payments s ++ [payment] /\
    Queue.jobs (emailQueue s') =
      Queue.jobs (emailQueue s) ++
      [Queue.mkJob "send-confirmation-email" id (User._id user) (User.email user)
                   (Order.totalAmount order)].
Proof.
  intros Horder Howner Hstatus Hdeadline Hfresh Hlines Hqueue doc.
  set (c1 := mkCtx (setOrders (<[id := Order.setStatus Order.PAID order]> (orders s)) s)
                   (products s) [InsertPayment doc]).
  destruct (forEach_confirmLine_confirmable (Order.items order) c1)
    as (c' & Hrun & Hframe & _ & Hlook).
  { reflexivity. }
  { exact Hlines. }
  destruct Hframe as (Ho & Hp & _ & Hq & Hs & _).
  set (job := Queue.mkJob "send-confirmation-email" id (User._id user) (User.email user)
                          (Order.totalAmount order)).
  set (c2 := mkCtx (setEmailQueue (Queue.mk true (Queue.jobs (emailQueue (db c')) ++ [job]))
                                  (db c'))
                   (docs c') (session c')).
  exists (foldl (fun s w => commit w s) (db c2) (session c2)).
  split; [| split; [| split; [| split]]].
  - rewrite (pay_pending now transactionId user id s order Horder Howner Hstatus Hdeadline).
    rewrite (bind_returns _ _ _ (mkCtx s (products s) [InsertPayment doc]) doc)
      by (apply (Payment_create_fresh doc); [reflexivity | exact Hfresh]).
    rewrite (bind_returns _ _ _ c1 ()) by reflexivity.
    rewrite (bind_returns _ _ _ c' ()) by exact Hrun.
    rewrite (bind_returns _ _ _ c2 ()); [reflexivity |].
    unfold emailQueue_add. rewrite Hq. unfold c1; cbn [db emailQueue setOrders].
    rewrite Hqueue. unfold c2. now rewrite Hq.
  - unfold c2; cbn [db session]. rewrite Hs. simpl. exact Ho.
  - unfold c2; cbn [db session]. rewrite Hs. simpl. exact Hlook.
  - unfold c2; cbn [db session]. rewrite Hs. simpl. now rewrite Hp.
  - unfold c2; cbn [db session]. rewrite Hs. simpl. now rewrite Hq.
Qed.

(** Whatever [pay] does on a pending order that is not expired while the
    queue is out of reach, it throws, and the payments are as before. *)
Lemma pay_queue_out_of_reach
    (now : Z) (transactionId : string) (user : User.t) (id : ObjectId)
    (s : State) (order : Order.t) :
  orders s !! id = Some order ->
  Order.userId order = User._id user ->
  Order.status order = Order.PENDING_PAYMENT ->
  now <= Order.paymentDeadline order ->
  Queue.reachable (emailQueue s) = false ->
  exists s' e,
    pay now transactionId user id s = (s', inl e) /\
    payments s' = payments s /\
    emailQueue s' = emailQueue s.
Proof.
  intros Horder Howner Hstatus Hdeadline Hqueue.
  rewrite (pay_pending now transactionId user id s order Horder Howner Hstatus Hdeadline).
  rewrite bind_run.
  set (doc := Payment.mk _ _ _ _ _).
  destruct (Payment_create doc (mkCtx s (products s) [])) as [c0 [e | payment]] eqn:Ecreate.
  { exists (db c0), e. unfold Payment_create in Ecreate.
    destruct (existsb _ _); inversion Ecreate; subst. repeat split; reflexivity. }
  assert (Hc0 : db c0 = s /\ docs c0 = products s).
  { unfold Payment_create in Ecreate.
    destruct (existsb _ _); inversion Ecreate; subst. split; reflexivity. }
  destruct Hc0 as [Hdb0 Hdocs0].
  rewrite bind_run. unfold Order_save at 1. rewrite Hdb0.
  set (c1 := mkCtx _ _ _).
  rewrite bind_run.
  destruct (forEach confirmLine (Order.items order) c1)
    as [c' [e | []]] eqn:Erun;
    pose proof (forEach_onlyProducts confirmLine _
                  (fun x c c' r => invoke_onlyProducts _ _ _ c c' r) _ _ _ Erun)
      as (_ & Hp & _ & Hq & _).
  - exists (db c'), e. repeat split; assumption.
  - rewrite bind_run. unfold emailQueue_add at 1. rewrite Hq.
    unfold c1; cbn [db emailQueue setOrders]. rewrite Hqueue.
    eexists (db c'), _. repeat split; assumption.
Qed.

(** C6, as amended.  On a pending order that is not expired, a [pay] call
    made while the enqueue step fails does itself fail, and the payment
    record does not remain in place: the payments are as before the call,
    because the record was created in the session of the transaction,
    which the error aborts.  When the transaction identifier is fresh and
    the products of the lines can be confirmed, so that the enqueue step is
    reached, the error of the call is the queue's error. *)
Theorem pay_enqueue_failure_drops_payment
    (now : Z) (transactionId : string) (user : User.t) (id : ObjectId)
    (s : State) (order : Order.t) :
  orders s !! id = Some order ->
  Order.userId order = User._id user ->
  Order.status order = Order.PENDING_PAYMENT ->
  now <= Order.paymentDeadline order ->
  Queue.reachable (emailQueue s) = false ->
  exists s' e,
    pay now transactionId user id s = (s', inl e) /\
    payments s' = payments s /\
    emailQueue s' = emailQueue s /\
    (Forall (fun p => Payment.transactionId p <> transactionId) (payments s) ->
     (forall product, 0 < heldBy (Order.items order) product ->
        exists p, products s !! product = Some p /\
                  confirmable (heldBy (Order.items order) product) p) ->
     exists message, e = QueueError message).
Proof.
  intros Horder Howner Hstatus Hdeadline Hqueue.
  destruct (pay_queue_out_of_reach now transactionId user id s order
              Horder Howner Hstatus Hdeadline Hqueue) as (s' & e & Hpay & Hp & Hq).
  exists s', e. repeat split; try assumption.
  intros Hfresh Hlines.
  destruct (pay_enqueue_rejected now transactionId user id s order
              Horder Howner Hstatus Hdeadline Hfresh Hlines Hqueue) as (s'' & Hpay' & _).
  rewrite Hpay in Hpay'. injection Hpay' as _ ->. eauto.
Qed.

Lemma pay_enqueue_failure_drops_payment_witness :
  exists s' e,
    pay 600000 "TXN_600000_k3j9x2m1q" alice 20 (shop noQueue) = (s', inl e) /\
    payments s' = payments (shop noQueue) /\
    emailQueue s' = emailQueue (shop noQueue) /\
    (Forall (fun p => Payment.transactionId p <> "TXN_600000_k3j9x2m1q"%string)
            (payments (shop noQueue)) ->
     (forall product, 0 < heldBy (Order.items aliceOrder) product ->
        exists p, products (shop noQueue) !! product = Some p /\
                  confirmable (heldBy (Order.items aliceOrder) product) p) ->
     exists message, e = QueueError message).
Proof.
  apply (pay_enqueue_failure_drops_payment 600000 "TXN_600000_k3j9x2m1q" alice 20
           (shop noQueue) aliceOrder); try reflexivity.
  simpl; lia.
Defined.

(** C6, the claim as stated fails: with the queue out of reach, [pay] on
    the pending, unexpired order 20 fails and leaves no payment record,
    while the same call with the queue in reach records the payment. *)
Lemma pay_enqueue_failure_loses_payment_record :
  (exists s' e,
     pay 600000 "TXN_600000_k3j9x2m1q" alice 20 (shop noQueue) = (s', inl e) /\
     payments s' = []) /\
  (exists s' r,
     pay 600000 "TXN_600000_k3j9x2m1q" alice 20 (shop idleQueue) = (s', inr r) /\
     payments s' = [Payment.mk 20 "TXN_600000_k3j9x2m1q" 8997 Payment.SUCCESS "MOCK_PAYMENT"]).
Proof.
  split; eexists _, _; (split; [vm_compute; reflexivity | reflexivity]).
Qed.

(** C2.  With the queue out of reach, [pay] on the pending, unexpired order
    20 fails, and yet two of its three effects are there and the third is
    not: the order is stored as [PAID], the stock of both lines is
    deducted, and there is no payment record. *)
Theorem pay_failure_leaves_order_paid_without_payment :
  exists s' e,
    pay 600000 "TXN_600000_k3j9x2m1q" alice 20 (shop noQueue) = (s', inl e) /\
    Order.status <$> orders s' !! 20%nat = Some Order.PAID /\
    products s' !! 10%nat = Some (Product.mk "Keyboard" 4999%N 9 7 2) /\
    products s' !! 11%nat = Some (Product.mk "Mouse" 1999%N 3 3 0) /\
    payments s' = [] /\
    products (shop noQueue) !! 10%nat = Some (Product.mk "Keyboard" 4999%N 10 7 3) /\
    products (shop noQueue) !! 11%nat = Some (Product.mk "Mouse" 1999%N 5 3 2).
Proof.
  eexists _, _. split; [vm_compute; reflexivity |].
  repeat split; reflexivity.
Qed.

(** The same on the shop whose mouse is under-reserved, with the queue in
    reach: the second line's confirmation throws, the order is stored as
    [PAID], the keyboard of the first line is deducted, the mouse is not,
    and there is no payment record. *)
Example pay_failure_on_second_line :
  exists s',
    pay 600000 "TXN_600000_k3j9x2m1q" alice 20 shopUnderReserved
    = (s', inl (Error "Insufficient reserved stock to confirm")) /\
    Order.status <$> orders s' !! 20%nat = Some Order.PAID /\
    products s' !! 10%nat = Some (Product.mk "Keyboard" 4999%N 9 7 2) /\
    products s' !! 11%nat = Some (Product.mk "Mouse" 1999%N 5 4 1) /\
    payments s' = [].
Proof.
  eexists. split; [vm_compute; reflexivity |].
  repeat split; reflexivity.
Qed.

(** * The expiry sweep *)

Lemma releaseLineIfProduct_onlyProducts item c c' r :
  releaseLineIfProduct item c = (c', r) -> onlyProducts c c'.
Proof.
  unfold releaseLineIfProduct, populated, gets. rewrite bind_run.
  destruct (docs c !! Order.productId item).
  - apply invoke_onlyProducts.
  - intros [= <- <-]. apply onlyProducts_refl.
Qed.

(** One expired order of the batch: whatever its lines do, the order is
    stored as [CANCELLED] and the loop body returns. *)
Lemma cancelExpiredOrder_returns id order c :
  exists c',
    cancelExpiredOrder (id, order) c = (c', inr ()) /\
    orders (db c') = <[id := Order.setStatus Order.CANCELLED order]> (orders (db c)) /\
    payments (db c') = payments (db c) /\
    emailQueue (db c') = emailQueue (db c).
Proof.
  unfold cancelExpiredOrder, try_catch. rewrite bind_run.
  unfold Order_save at 1.
  set (c1 := mkCtx _ _ _).
  destruct (forEach releaseLineIfProduct
              (Order.items (Order.setStatus Order.CANCELLED order)) c1)
    as [c' r] eqn:E.
  pose proof (forEach_onlyProducts _ _ releaseLineIfProduct_onlyProducts _ _ _ E)
    as (Ho & Hp & _ & Hq & _).
  exists c'. destruct r as [e | []]; (split; [reflexivity |]); auto.
Qed.

Lemma forEach_cancelExpiredOrder expired : forall c,
  exists c',
    forEach cancelExpiredOrder expired c = (c', inr ()) /\
    orders (db c') =
      foldl (fun os o => <[o.1 := Order.setStatus Order.CANCELLED o.2]> os)
            (orders (db c)) expired /\
    payments (db c') = payments (db c) /\
    emailQueue (db c') = emailQueue (db c).
Proof.
  induction expired as [| [id order] expired IH]; intros c.
  - exists c. repeat split; reflexivity.
  - destruct (cancelExpiredOrder_returns id order c) as (c1 & Hrun & Ho & Hp & Hq).
    destruct (IH c1) as (c' & Hrun' & Ho' & Hp' & Hq').
    exists c'. rewrite forEach_cons, Hrun. split; [exact Hrun' |].
    simpl. rewrite Ho', Ho, Hp', Hp, Hq', Hq. repeat split; reflexivity.
Qed.

Lemma cancelled_lookup_notin (expired : list (ObjectId * Order.t)) :
  forall (os : gmap ObjectId Order.t) id,
  id ∉ expired.*1 ->
  foldl (fun os o => <[o.1 := Order.setStatus Order.CANCELLED o.2]> os) os expired !! id
  = os !! id.
Proof.
  induction expired as [| [id0 o0] expired IH]; intros os id Hnotin; [reflexivity |].
  simpl in *. apply not_elem_of_cons in Hnotin as [Hne Hnotin].
  rewrite IH by exact Hnotin. now rewrite lookup_insert_ne by congruence.
Qed.

Lemma cancelled_lookup_in (expired : list (ObjectId * Order.t)) :
  forall (os : gmap ObjectId Order.t) id order,
  NoDup expired.*1 ->
  (id, order) ∈ expired ->
  foldl (fun os o => <[o.1 := Order.setStatus Order.CANCELLED o.2]> os) os expired !! id
  = Some (Order.setStatus Order.CANCELLED order).
Proof.
  induction expired as [| [id0 o0] expired IH]; intros os id order Hnd Hin.
  - now apply elem_of_nil in Hin.
  - simpl in *. apply NoDup_cons in Hnd as [Hnotin Hnd].
    apply elem_of_cons in Hin as [[= -> ->] | Hin].
    + rewrite cancelled_lookup_notin by exact Hnotin. apply lookup_insert_eq.
    + now apply IH.
Qed.

(** The orders after a run of the sweep: every order that the query finds
    is stored as [CANCELLED], every other order is as before; payments are
    untouched. *)
Lemma cancelExpiredOrders_orders now s id :
  orders (cancelExpiredOrders now s).1 !! id = swept now <$> orders s !! id.
Proof.
  unfold cancelExpiredOrders.
  set (expired := filter _ (map_to_list (orders s))).
  assert (Hin : forall i o, (i, o) ∈ expired <-> expiredQuery now o = true /\ orders s !! i = Some o).
  { intros i o. unfold expired. rewrite list_elem_of_filter, elem_of_map_to_list.
    reflexivity. }
  assert (Hnd : NoDup expired.*1).
  { apply (sublist_NoDup _ ((map_to_list (orders s)).*1)).
    - apply NoDup_fst_map_to_list.
    - apply fmap_sublist, sublist_filter. }
  assert (Hlook :
    foldl (fun os o => <[o.1 := Order.setStatus Order.CANCELLED o.2]> os) (orders s) expired !! id
    = swept now <$> orders s !! id).
  { destruct (orders s !! id) as [o |] eqn:Eo; simpl; unfold swept.
    - destruct (expiredQuery now o) eqn:Eq.
      + apply cancelled_lookup_in; [exact Hnd |]. now apply Hin.
      + rewrite cancelled_lookup_notin; [exact Eo |].
        intros ([i o'] & -> & Hio)%list_elem_of_fmap. simpl in *.
        apply Hin in Hio as [Hq Hl]. congruence.
    - rewrite cancelled_lookup_notin; [exact Eo |].
      intros ([i o'] & -> & Hio)%list_elem_of_fmap. simpl in *.
      apply Hin in Hio as [Hq Hl]. congruence. }
  destruct (Nat.eqb_spec (length expired) 0) as [Hlen | Hlen].
  - apply length_zero_iff_nil in Hlen. rewrite Hlen in Hlook. exact Hlook.
  - rewrite bind_run. unfold populate at 1.
    destruct (forEach_cancelExpiredOrder expired (mkCtx s (products s) []))
      as (c' & Hrun & Ho & _).
    cbn [db docs session]. rewrite Hrun. cbn [fst]. rewrite Ho. exact Hlook.
Qed.

(** C7, as amended.  A run of the sweep returns no count: its value is
    [undefined] on every state.  What it does with the orders it found in
    [PENDING_PAYMENT] with a payment deadline before [now] is to store each
    of them as [CANCELLED], and it leaves every other order as it was. *)
Theorem cancelExpiredOrders_returns_undefined (now : Z) (s : State) :
  (cancelExpiredOrders now s).2 = undefined /\
  forall id, orders (cancelExpiredOrders now s).1 !! id = swept now <$> orders s !! id.
Proof.
  split; [| intros id; apply cancelExpiredOrders_orders].
  unfold cancelExpiredOrders.
  destruct (length _ =? 0)%nat; [reflexivity |].
  now destruct ((populate ≫= _) _).
Qed.

(** C7, the claim as stated fails: the run of the sweep at time 1000000
    on the shop cancels one order, and its value is not the number one. *)
Lemma cancelExpiredOrders_value_is_not_the_count :
  let run := cancelExpiredOrders 1000000 (shop idleQueue) in
  ordersCancelledInRun 1000000 (shop idleQueue) run.1 = 1%nat /\
  run.2 <> number (Z.of_nat (ordersCancelledInRun 1000000 (shop idleQueue) run.1)).
Proof.
  split; [vm_compute; reflexivity |].
  vm_compute. discriminate.
Qed.

(** ** A line whose product record is gone *)

Lemma releaseLineIfProduct_missing item items c :
  docs c !! Order.productId item = None ->
  forEach releaseLineIfProduct (item :: items) c = forEach releaseLineIfProduct items c.
Proof.
  intros Hnone. rewrite forEach_cons.
  unfold releaseLineIfProduct at 1, populated, gets. rewrite bind_run.
  now rewrite Hnone.
Qed.

Lemma releaseLineIfProduct_present item c :
  is_Some (docs c !! Order.productId item) ->
  releaseLineIfProduct item c = releaseLine item c.
Proof.
  intros [p Hp]. unfold releaseLineIfProduct, populated, gets.
  rewrite bind_run. now rewrite Hp.
Qed.


Lemma onlyProducts_is_Some c c' product :
  onlyProducts c c' ->
  is_Some (docs c' !! product) <-> is_Some (docs c !! product).
Proof.
  intros (_ & _ & _ & _ & _ & Hd). specialize (Hd product).
  rewrite <- !not_eq_None_Some. tauto.
Qed.

(** The sweep's loop over the lines is the unguarded loop over the lines
    whose product exists. *)
Lemma forEach_releaseLineIfProduct_filter items : forall c,
  forEach releaseLineIfProduct items c =
  forEach releaseLine
    (filter (fun item => is_Some (docs c !! Order.productId item)) items) c.
Proof.
  induction items as [| item items IH]; intros c; [reflexivity |].
  destruct (docs c !! Order.productId item) as [p |] eqn:Hp.
  - rewrite filter_cons_True by (rewrite Hp; eauto).
    rewrite !forEach_cons.
    rewrite releaseLineIfProduct_present by (rewrite Hp; eauto).
    destruct (releaseLine item c) as [c1 [e | []]] eqn:E; [reflexivity |].
    rewrite IH. f_equal. apply list_filter_iff. intros item'.
    apply onlyProducts_is_Some. eapply invoke_onlyProducts, E.
  - rewrite filter_cons_False by (rewrite Hp; apply is_Some_None).
    rewrite releaseLineIfProduct_missing by exact Hp. apply IH.
Qed.






(** The sweep on the shop with the deleted product: the order is cancelled,
    the line of the deleted product is passed over and the keyboard of the
    line after it goes back to the available stock. *)
Example sweep_after_delete :
  let s' := (cancelExpiredOrders 1000000 shopAfterDelete).1 in
  Order.status <$> orders s' !! 20%nat = Some Order.CANCELLED /\
  products s' !! 10%nat = Some (Product.mk "Keyboard" 4999%N 10 8 2) /\
  products s' !! 11%nat = None.
Proof. vm_compute. repeat split; reflexivity. Qed.

(** * Further properties of the models *)

(** ** The stock ledger, composed *)

Lemma reserve_Saved this q this' :
  Product.reserveStock this q = (this', Saved) ->
  q <= Product.availableStock this /\ this' = reservedBy q this /\
  Product.nonNegative this'.
Proof.
  unfold Product.reserveStock.
  destruct (Z.ltb_spec (Product.availableStock this) q); [discriminate |].
  intros [-> Hn]%save_Saved. repeat split; [lia | apply Hn..].
Qed.

(** X1.  A reservation followed by its confirmation is a sale: on a product
    record that satisfies I1 with non-negative counters, and for a quantity
    between zero and the available stock, both calls are saved and leave
    [stock] and [availableStock] lower by the quantity and [reservedStock]
    as it was. *)
Theorem reserve_then_confirm_sells this q :
  Product.I1 this ->
  Product.nonNegative this ->
  0 <= q <= Product.availableStock this ->
  exists held,
    Product.reserveStock this q = (held, Saved) /\
    Product.confirmStockDeduction held q =
      (Product.mk (Product.name this) (Product.price this) (Product.stock this - q)
                  (Product.availableStock this - q) (Product.reservedStock this),
       Saved).
Proof.
  intros HI (Hs & Ha & Hr) [H0 Hq]. unfold Product.I1 in HI.
  exists (reservedBy q this). split.
  - unfold Product.reserveStock.
    destruct (Z.ltb_spec (Product.availableStock this) q); [lia |].
    apply save_nonNegative. unfold Product.nonNegative; simpl; lia.
  - unfold Product.confirmStockDeduction; simpl.
    destruct (Z.ltb_spec (Product.reservedStock this + q) q); [lia |].
    replace (Product.reservedStock this + q - q) with (Product.reservedStock this) by lia.
    apply save_nonNegative. unfold Product.nonNegative; simpl; lia.
Qed.

Lemma reserve_then_confirm_sells_witness :
  exists held,
    Product.reserveStock keyboard 4 = (held, Saved) /\
    Product.confirmStockDeduction held 4 =
      (Product.mk "Keyboard" 4999%N (10 - 4) (7 - 4) 3, Saved).
Proof.
  apply (reserve_then_confirm_sells keyboard 4).
  - reflexivity.
  - unfold Product.nonNegative; simpl; lia.
  - simpl; lia.
Defined.

(** X2.  No oversell on one document: when every reservation of a sequence
    is saved, the quantities add up to no more than the stock that was
    available at the start; they have all left [availableStock] for
    [reservedStock], and [stock] is as it was. *)
Theorem reserveAll_never_oversells this qs this' :
  Product.nonNegative this ->
  reserveAll this qs = Some this' ->
  foldr Z.add 0 qs <= Product.availableStock this /\
  this' = reservedBy (foldr Z.add 0 qs) this.
Proof.
  revert this. induction qs as [| q qs IH]; intros this Hn.
  - intros [= <-]. simpl. destruct Hn as (_ & Ha & _). split; [exact Ha |].
    destruct this; unfold reservedBy; simpl. f_equal; lia.
  - simpl. destruct (Product.reserveStock this q) as [held [| e]] eqn:E; [| discriminate].
    apply reserve_Saved in E as (Hq & -> & Hheld).
    intros Hall. destruct (IH _ Hheld Hall) as [Hsum ->]. simpl in Hsum.
    split; [lia |]. unfold reservedBy; simpl. f_equal; lia.
Qed.

Lemma reserveAll_never_oversells_witness :
  foldr Z.add 0 [3; 4] <= Product.availableStock keyboard /\
  Product.mk "Keyboard" 4999%N 10 0 10 = reservedBy (foldr Z.add 0 [3; 4]) keyboard.
Proof.
  apply (reserveAll_never_oversells keyboard [3; 4]).
  - unfold Product.nonNegative; simpl; lia.
  - reflexivity.
Defined.

(** X3.  On a product record that satisfies I1 with non-negative counters
    and for a quantity that is not negative, each ledger method is saved
    exactly when the counter it guards covers the quantity: the available
    stock for [reserveStock], the reserved stock for the other two.  When
    it does not, the method throws its own error and the document is as
    before. *)
Theorem ledger_guards this q :
  Product.I1 this ->
  Product.nonNegative this ->
  0 <= q ->
  ((Product.reserveStock this q).2 = Saved <-> q <= Product.availableStock this) /\
  ((Product.releaseReservedStock this q).2 = Saved <-> q <= Product.reservedStock this) /\
  ((Product.confirmStockDeduction this q).2 = Saved <-> q <= Product.reservedStock this) /\
  (Product.availableStock this < q ->
   Product.reserveStock this q = (this, Threw (Error "Insufficient stock available"))) /\
  (Product.reservedStock this < q ->
   Product.releaseReservedStock this q
   = (this, Threw (Error "Insufficient reserved stock to release")) /\
   Product.confirmStockDeduction this q
   = (this, Threw (Error "Insufficient reserved stock to confirm"))).
Proof.
  intros HI (Hs & Ha & Hr) H0. unfold Product.I1 in HI.
  unfold Product.reserveStock, Product.releaseReservedStock, Product.confirmStockDeduction.
  destruct (Z.ltb_spec (Product.availableStock this) q) as [Hlt | Hge];
  destruct (Z.ltb_spec (Product.reservedStock this) q) as [Hlt' | Hge'];
    repeat split; simpl; try discriminate; try lia; intros _;
    rewrite save_nonNegative; try reflexivity;
    unfold Product.nonNegative; simpl; lia.
Qed.

Lemma ledger_guards_witness :
  ((Product.reserveStock keyboard 8).2 = Saved <-> 8 <= Product.availableStock keyboard) /\
  ((Product.releaseReservedStock keyboard 8).2 = Saved <-> 8 <= Product.reservedStock keyboard) /\
  ((Product.confirmStockDeduction keyboard 8).2 = Saved <-> 8 <= Product.reservedStock keyboard) /\
  (Product.availableStock keyboard < 8 ->
   Product.reserveStock keyboard 8 = (keyboard, Threw (Error "Insufficient stock available"))) /\
  (Product.reservedStock keyboard < 8 ->
   Product.releaseReservedStock keyboard 8
   = (keyboard, Threw (Error "Insufficient reserved stock to release")) /\
   Product.confirmStockDeduction keyboard 8
   = (keyboard, Threw (Error "Insufficient reserved stock to confirm"))).
Proof.
  apply (ledger_guards keyboard 8).
  - reflexivity.
  - unfold Product.nonNegative; simpl; lia.
  - lia.
Defined.

(** ** The order model *)

Lemma updateStatus_Saved this target this' :
  Order.updateStatus this target = (this', Saved) ->
  this' = Order.setStatus target this /\
  allowedTransition (Order.status this) target = true /\
  (progress (Order.status this) < progress target)%nat.
Proof.
  unfold Order.updateStatus. destruct this as [u i a st d]; simpl.
  destruct st, target; simpl; intros [= <-]; repeat split; lia.
Qed.

Lemma updateAll_progress targets : forall this this',
  updateAll this targets = Some this' ->
  Forall (fun t => (progress (Order.status this) < progress t)%nat) targets /\
  NoDup targets /\
  (progress (Order.status this) + length targets <= progress (Order.status this'))%nat /\
  Order.userId this' = Order.userId this /\
  Order.items this' = Order.items this /\
  Order.totalAmount this' = Order.totalAmount this /\
  Order.paymentDeadline this' = Order.paymentDeadline this.
Proof.
  induction targets as [| target targets IH]; intros this this'.
  - intros [= <-]. simpl. repeat split; try lia; constructor.
  - simpl. destruct (Order.updateStatus this target) as [next [| e]] eqn:E; [| discriminate].
    apply updateStatus_Saved in E as (-> & _ & Hlt).
    intros Hall. destruct (IH _ _ Hall) as (Hall' & Hnd & Hle & Hu & Hi & Ha & Hd).
    simpl in *. repeat split; try assumption; try lia.
    + constructor; [exact Hlt |].
      eapply Forall_impl; [exact Hall' |]. simpl. intros t Ht. lia.
    + constructor; [| exact Hnd].
      intros Hin. rewrite Forall_forall in Hall'. specialize (Hall' _ Hin). lia.
Qed.

Lemma progress_le_3 s : (progress s <= 3)%nat.
Proof. destruct s; simpl; lia. Qed.

(** X4.  The status of an order only moves forward.  When every update of
    a sequence of [updateStatus] calls is saved, the order never comes back
    to a status it has had, the sequence has at most three updates, and an
    order that is [DELIVERED] or [CANCELLED] takes none; the owner, the
    lines, the amount and the payment deadline of the order are as at the
    start. *)
Theorem updateStatus_only_moves_forward this targets this' :
  updateAll this targets = Some this' ->
  NoDup (Order.status this :: targets) /\
  (length targets <= 3)%nat /\
  (Order.status this = Order.DELIVERED \/ Order.status this = Order.CANCELLED ->
   targets = []) /\
  this' = Order.setStatus (Order.status this') this.
Proof.
  intros Hall.
  destruct (updateAll_progress _ _ _ Hall) as (Hfwd & Hnd & Hle & Hu & Hi & Ha & Hd).
  pose proof (progress_le_3 (Order.status this')) as H3.
  repeat split.
  - constructor; [| exact Hnd].
    intros Hin. rewrite Forall_forall in Hfwd. specialize (Hfwd _ Hin). lia.
  - lia.
  - intros Hterminal. apply length_zero_iff_nil.
    destruct Hterminal as [H | H]; rewrite H in Hle; simpl in Hle; lia.
  - destruct this, this'; unfold Order.setStatus; simpl in *. congruence.
Qed.

Lemma updateStatus_only_moves_forward_witness :
  NoDup (Order.status aliceOrder :: [Order.PAID; Order.SHIPPED; Order.DELIVERED]) /\
  (length [Order.PAID; Order.SHIPPED; Order.DELIVERED] <= 3)%nat /\
  (Order.status aliceOrder = Order.DELIVERED \/ Order.status aliceOrder = Order.CANCELLED ->
   [Order.PAID; Order.SHIPPED; Order.DELIVERED] = []) /\
  Order.setStatus Order.DELIVERED aliceOrder
  = Order.setStatus (Order.status (Order.setStatus Order.DELIVERED aliceOrder)) aliceOrder.
Proof.
  apply (updateStatus_only_moves_forward aliceOrder
           [Order.PAID; Order.SHIPPED; Order.DELIVERED]).
  reflexivity.
Defined.

(** X5.  The payment window.  An order in [PENDING_PAYMENT] whose deadline
    is the default one given at time [now] is expired at time [t] exactly
    when [t] is more than fifteen minutes (900000 ms) after [now]; an order
    in any other status is never expired; and the test of the pay path,
    [isExpired], selects the same orders at the same time as the query of
    the sweep. *)
Theorem expiry_after_fifteen_minutes (now t : Z) (order : Order.t) :
  Order.paymentDeadline order = Order.defaultPaymentDeadline now ->
  (Order.isExpired t order = true <->
   Order.status order = Order.PENDING_PAYMENT /\ now + 900000 < t) /\
  (forall (o : Order.t), Order.isExpired t o = expiredQuery t o).
Proof.
  intros Hd. split; [| reflexivity].
  unfold Order.isExpired, Order.defaultPaymentDeadline in *. rewrite Hd.
  rewrite andb_true_iff, bool_decide_eq_true, Z.ltb_lt. split; intros [H1 H2]; split;
    try assumption; lia.
Qed.

Lemma expiry_after_fifteen_minutes_witness :
  (Order.isExpired 900001 aliceOrder = true <->
   Order.status aliceOrder = Order.PENDING_PAYMENT /\ 0 + 900000 < 900001) /\
  (forall (o : Order.t), Order.isExpired 900001 o = expiredQuery 900001 o).
Proof.
  apply (expiry_after_fifteen_minutes 0 900001 aliceOrder). reflexivity.
Defined.

(** ** The cart model *)



Lemma cartQuantity_notin product lines :
  product ∉ cartProducts lines -> cartQuantity lines product = 0.
Proof.
  unfold cartProducts. induction lines as [| item lines IH]; csimpl; [reflexivity |].
  rewrite not_elem_of_cons. intros [Hne Hnotin].
  rewrite decide_False by congruence. now apply IH.
Qed.



















(** * Further properties of the routes *)

(** ** The product catalogue *)

(** X10.  [POST /api/products] with a stock that is not negative stores,
    under an identifier that no product had, a record with the whole stock
    available and nothing reserved; the record satisfies I1 with
    non-negative counters and no other product changes.  With a negative
    stock the validators reject the record and nothing is stored. *)
Theorem createProduct_starts_with_all_stock_available
    (name : string) (price : N) (stock : Z) (s : State) :
  (0 <= stock ->
   exists id,
     createProduct name price stock s
     = (setProducts (<[id := Product.mk name price stock stock 0]> (products s)) s,
        inr (id, Product.mk name price stock stock 0)) /\
     products s !! id = None /\
     Product.I1 (Product.mk name price stock stock 0) /\
     Product.nonNegative (Product.mk name price stock stock 0)) /\
  (stock < 0 -> exists e, createProduct name price stock s = (s, inl e)).
Proof.
  unfold createProduct. split.
  - intros H0.
    assert (Hn : Product.nonNegative (Product.mk name price stock stock 0))
      by (unfold Product.nonNegative; simpl; lia).
    rewrite (save_nonNegative _ Hn).
    exists (fresh (dom (products s))). repeat split; try apply Hn.
    + apply not_elem_of_dom, is_fresh.
    + unfold Product.I1; simpl; lia.
  - intros Hneg. unfold Product.save, Product.validate; simpl.
    destruct (Z.ltb_spec stock 0); [| lia]. simpl. eauto.
Qed.

Lemma createProduct_starts_with_all_stock_available_witness :
  exists id,
    createProduct "Headset" 5999 12 (shop idleQueue)
    = (setProducts (<[id := Product.mk "Headset" 5999 12 12 0]> (products (shop idleQueue)))
                   (shop idleQueue),
       inr (id, Product.mk "Headset" 5999 12 12 0)) /\
    products (shop idleQueue) !! id = None /\
    Product.I1 (Product.mk "Headset" 5999 12 12 0) /\
    Product.nonNegative (Product.mk "Headset" 5999 12 12 0).
Proof.
  apply (createProduct_starts_with_all_stock_available "Headset" 5999 12 (shop idleQueue)).
  lia.
Defined.

(** X11.  [PUT /api/products/:id] with a new stock, on a product that
    satisfies I1 with non-negative counters: the update is saved exactly
    when the new stock is at least the reserved stock.  It then leaves the
    reserved stock as it was and makes the rest of the new stock available,
    so that I1 holds again; a new stock below the reserved stock is
    rejected by the validators and the product stays as it was. *)
Theorem updateProduct_stock_keeps_reservations
    (id : ObjectId) (name : option string) (price : option N) (stock : Z)
    (s : State) (product : Product.t) :
  products s !! id = Some product ->
  Product.I1 product ->
  Product.nonNegative product ->
  (Product.reservedStock product <= stock ->
   exists product',
     updateProduct id name price (Some stock) s
     = (setProducts (<[id := product']> (products s)) s, inr product') /\
     Product.stock product' = stock /\
     Product.availableStock product' = stock - Product.reservedStock product /\
     Product.reservedStock product' = Product.reservedStock product /\
     Product.I1 product') /\
  (stock < Product.reservedStock product ->
   exists e, updateProduct id name price (Some stock) s = (s, inl e)).
Proof.
  intros Hp HI (Hs & Ha & Hr). unfold Product.I1 in HI.
  unfold updateProduct. rewrite Hp.
  set (p1 := match name with Some _ => _ | None => _ end).
  set (p2 := match price with Some _ => _ | None => _ end).
  assert (H1 : Product.stock p1 = Product.stock product /\
               Product.availableStock p1 = Product.availableStock product /\
               Product.reservedStock p1 = Product.reservedStock product).
  { unfold p1. destruct name as [n |]; [case_bool_decide |]; simpl; auto. }
  assert (H2 : Product.stock p2 = Product.stock product /\
               Product.availableStock p2 = Product.availableStock product /\
               Product.reservedStock p2 = Product.reservedStock product).
  { unfold p2. destruct price as [n |]; [destruct (n =? 0)%N |]; simpl; auto. }
  destruct H2 as (E1 & E2 & E3). rewrite E1, E2, E3.
  split.
  - intros Hge. eexists. rewrite save_nonNegative.
    + split; [reflexivity |]. simpl. unfold Product.I1; simpl. repeat split; lia.
    + unfold Product.nonNegative; simpl. lia.
  - intros Hlt. unfold Product.save, Product.validate; simpl.
    destruct (stock <? 0);
      destruct (Z.ltb_spec (Product.availableStock product + (stock - Product.stock product)) 0);
      simpl; eauto. lia.
Qed.

Lemma updateProduct_stock_keeps_reservations_witness :
  exists product',
    updateProduct 10 None None (Some 4) (shop idleQueue)
    = (setProducts (<[10%nat := product']> (products (shop idleQueue))) (shop idleQueue),
       inr product') /\
    Product.stock product' = 4 /\
    Product.availableStock product' = 4 - Product.reservedStock keyboard /\
    Product.reservedStock product' = Product.reservedStock keyboard /\
    Product.I1 product'.
Proof.
  apply (updateProduct_stock_keeps_reservations 10%nat None None 4 (shop idleQueue) keyboard).
  - reflexivity.
  - reflexivity.
  - unfold Product.nonNegative; simpl; lia.
  - simpl; lia.
Defined.



(** ** The cart routes *)

Lemma Cart_findOrCreate_spec userId s :
  let '(s', cart) := Cart_findOrCreate userId s in
  products s' = products s /\ orders s' = orders s /\ payments s' = payments s /\
  emailQueue s' = emailQueue s /\
  carts s' !! userId = Some cart /\
  Cart.items cart = cartLines s userId /\
  (forall other, other <> userId -> carts s' !! other = carts s !! other).
Proof.
  unfold Cart_findOrCreate, cartLines.
  destruct (carts s !! userId) as [cart |] eqn:E; simpl.
  - repeat split; auto.
  - repeat split; auto; [apply lookup_insert_eq |].
    intros other Hne. now apply lookup_insert_ne.
Qed.

(** X13.  The cart routes reserve nothing.  A request of one of the five
    cart routes leaves the products, the orders, the payments and the queue
    as they were, and the carts of all other users too. *)
Theorem cart_routes_touch_one_cart_only (r : Request) (s : State) (userId : ObjectId) :
  cartRequestUser r = Some userId ->
  products (handle r s) = products s /\
  orders (handle r s) = orders s /\
  payments (handle r s) = payments s /\
  emailQueue (handle r s) = emailQueue s /\
  (forall other, other <> userId -> carts (handle r s) !! other = carts s !! other).
Proof.
  destruct r; simpl; try discriminate; intros [= <-].
  - unfold getCart.
    pose proof (Cart_findOrCreate_spec (User._id user) s) as H.
    destruct (Cart_findOrCreate (User._id user) s) as [s' cart]. simpl. tauto.
  - unfold addCartItem.
    destruct (products s !! productId) as [product |]; [| simpl; auto].
    destruct (_ <? _); [simpl; auto |].
    pose proof (Cart_findOrCreate_spec (User._id user) s) as H.
    destruct (Cart_findOrCreate (User._id user) s) as [s' cart].
    destruct H as (Hp & Ho & Hpay & Hq & _ & _ & Hother).
    destruct (Cart.addItem cart productId (Z.pos quantity)) as [e | cart']; simpl.
    + repeat split; auto.
    + repeat split; auto. intros other Hne.
      rewrite lookup_insert_ne by congruence. now apply Hother.
  - unfold updateCartItem.
    destruct (_ || _); [simpl; auto |].
    destruct (products s !! productId) as [product |]; [| simpl; auto].
    destruct (carts s !! User._id user) as [cart |]; [| simpl; auto].
    match goal with |- context [if ?b then _ else _] => destruct b end; [simpl; auto |].
    destruct (Cart.updateItemQuantity cart productId quantity) as [e | cart']; simpl.
    + repeat split; auto.
    + repeat split; auto. intros other Hne. now rewrite lookup_insert_ne by congruence.
  - unfold removeCartItem.
    destruct (carts s !! User._id user) as [cart |]; simpl; [| auto].
    repeat split; auto. intros other Hne. now rewrite lookup_insert_ne by congruence.
  - unfold clearCartRoute.
    destruct (carts s !! User._id user) as [cart |]; simpl; [| auto].
    repeat split; auto. intros other Hne. now rewrite lookup_insert_ne by congruence.
Qed.

Lemma cart_routes_touch_one_cart_only_witness :
  products (handle (AddCartItem alice 10 2) (shop idleQueue)) = products (shop idleQueue) /\
  orders (handle (AddCartItem alice 10 2) (shop idleQueue)) = orders (shop idleQueue) /\
  payments (handle (AddCartItem alice 10 2) (shop idleQueue)) = payments (shop idleQueue) /\
  emailQueue (handle (AddCartItem alice 10 2) (shop idleQueue)) = emailQueue (shop idleQueue) /\
  (forall other, other <> 1%nat ->
     carts (handle (AddCartItem alice 10 2) (shop idleQueue)) !! other
     = carts (shop idleQueue) !! other).
Proof.
  apply (cart_routes_touch_one_cart_only (AddCartItem alice 10 2) (shop idleQueue) 1%nat).
  reflexivity.
Defined.





(** ** Checkout *)

Lemma checkoutItems_cons cartItem cartItems orderItems totalAmount c :
  checkoutItems (cartItem :: cartItems) orderItems totalAmount c =
    match docs c !! Cart.productId cartItem with
    | None => (c, inl (AppError "Product null not found" 404))
    | Some product =>
        if Product.availableStock product <? Z.pos (Cart.quantity cartItem) then
          (c, inl (AppError ("Insufficient stock for product " +:+ Product.name product) 400))
        else
          match invoke Product.reserveStock (Cart.productId cartItem)
                       (Z.pos (Cart.quantity cartItem)) c with
          | (c', inr _) =>
              checkoutItems cartItems
                (orderItems ++ [Order.mkItem (Cart.productId cartItem)
                                             (Cart.quantity cartItem)
                                             (Product.price product)])
                (totalAmount + Product.price product * N.pos (Cart.quantity cartItem))%N c'
          | (c', inl e) => (c', inl e)
          end
    end.
Proof.
  simpl. unfold populated, gets. rewrite bind_run.
  destruct (docs c !! Cart.productId cartItem) as [product |]; [| reflexivity].
  destruct (_ <? _); reflexivity.
Qed.

Lemma checkoutItems_onlyProducts cartItems : forall orderItems totalAmount c c' r,
  checkoutItems cartItems orderItems totalAmount c = (c', r) -> onlyProducts c c'.
Proof.
  induction cartItems as [| cartItem cartItems IH]; intros orderItems totalAmount c c' r.
  - intros [= <- <-]. apply onlyProducts_refl.
  - rewrite checkoutItems_cons.
    destruct (docs c !! Cart.productId cartItem) as [product |];
      [| intros [= <- <-]; apply onlyProducts_refl].
    destruct (_ <? _); [intros [= <- <-]; apply onlyProducts_refl |].
    destruct (invoke _ _ _ c) as [c1 [e | []]] eqn:E.
    + intros [= <- <-]. eapply invoke_onlyProducts, E.
    + intros H. eapply onlyProducts_trans; [eapply invoke_onlyProducts, E | eapply IH, H].
Qed.

(** What a checkout loop that runs to its end returns: the lines it was
    given followed by one line for each line of the cart, with the cart's
    product and quantity, and the amount it was given plus the amount of
    the new lines. *)
Lemma checkoutItems_returns cartItems : forall orderItems totalAmount c c' orderItems' totalAmount',
  checkoutItems cartItems orderItems totalAmount c = (c', inr (orderItems', totalAmount')) ->
  exists added,
    orderItems' = orderItems ++ added /\
    totalAmount' = (totalAmount + orderTotal added)%N /\
    cartLine <$> added = cartItems.
Proof.
  induction cartItems as [| cartItem cartItems IH];
    intros orderItems totalAmount c c' orderItems' totalAmount'.
  - intros [= <- <- <-]. exists []. rewrite app_nil_r. simpl. repeat split. lia.
  - rewrite checkoutItems_cons.
    destruct (docs c !! Cart.productId cartItem) as [product |]; [| discriminate].
    destruct (_ <? _); [discriminate |].
    destruct (invoke _ _ _ c) as [c1 [e | []]] eqn:E; [discriminate |].
    intros H. destruct (IH _ _ _ _ _ _ H) as (added & -> & -> & Hlines).
    eexists (_ :: added). rewrite <- app_assoc. split; [reflexivity |].
    split; [simpl; lia |]. csimpl. rewrite Hlines. unfold cartLine; simpl.
    now destruct cartItem.
Qed.

Lemma checkoutItems_missing cartItems : forall orderItems totalAmount c item,
  item ∈ cartItems ->
  docs c !! Cart.productId item = None ->
  exists c' e, checkoutItems cartItems orderItems totalAmount c = (c', inl e).
Proof.
  induction cartItems as [| cartItem cartItems IH]; intros orderItems totalAmount c item Hin Hnone.
  - now apply elem_of_nil in Hin.
  - rewrite checkoutItems_cons.
    destruct (docs c !! Cart.productId cartItem) as [product |] eqn:Hp; [| eauto].
    destruct (_ <? _); [eauto |].
    destruct (invoke _ _ _ c) as [c1 [e | []]] eqn:E; [eauto |].
    apply elem_of_cons in Hin as [-> | Hin]; [congruence |].
    eapply IH; [exact Hin |].
    apply invoke_onlyProducts in E as (_ & _ & _ & _ & _ & Hd). now apply Hd.
Qed.

Lemma checkout_run now user s :
  checkout now user s =
    match carts s !! User._id user with
    | None => (s, inl (AppError "Cart is empty" 400))
    | Some cart =>
        if (length (Cart.items cart) =? 0)%nat then (s, inl (AppError "Cart is empty" 400))
        else
          match checkoutItems (Cart.items cart) [] 0%N (mkCtx s (products s) []) with
          | (c, inl e) => (db c, inl e)
          | (c, inr (orderItems, totalAmount)) =>
              let _id := fresh (dom (orders (db c))) in
              let order := Order.mk (User._id user) orderItems totalAmount
                                    Order.PENDING_PAYMENT
                                    (Order.defaultPaymentDeadline now) in
              (foldl (fun s w => commit w s)
                     (setCarts (<[User._id user := Cart.clearCart cart]> (carts (db c))) (db c))
                     (session c ++ [InsertOrder _id order]),
               inr (_id, order))
          end
    end.
Proof.
  unfold checkout, withTransaction.
  rewrite (bind_returns _ _ _ (mkCtx s (products s) []) (carts s !! User._id user))
    by reflexivity.
  destruct (carts s !! User._id user) as [cart |]; [| reflexivity].
  destruct (length (Cart.items cart) =? 0)%nat; [reflexivity |].
  rewrite bind_run.
  destruct (checkoutItems _ _ _ _) as [c [e | [orderItems totalAmount]]]; reflexivity.
Qed.

(** X16.  A checkout that fails has created no order and has kept the
    cart: the orders, the carts, the payments and the queue are as before
    the call.  It fails in this way, with [Cart is empty] and nothing
    changed at all, for a user with no cart or with a cart of no lines, and
    it fails whenever a line of the cart refers to a product that does not
    exist. *)
Theorem checkout_failure_keeps_cart_and_orders (now : Z) (user : User.t) (s : State) :
  (forall s' e,
     checkout now user s = (s', inl e) ->
     orders s' = orders s /\ carts s' = carts s /\
     payments s' = payments s /\ emailQueue s' = emailQueue s) /\
  (cartLines s (User._id user) = [] ->
   checkout now user s = (s, inl (AppError "Cart is empty" 400))) /\
  (forall item,
     item ∈ cartLines s (User._id user) ->
     products s !! Cart.productId item = None ->
     exists s' e, checkout now user s = (s', inl e)).
Proof.
  rewrite checkout_run. unfold cartLines.
  destruct (carts s !! User._id user) as [cart |].
  2:{ split; [| split].
      - intros s' e [= <- _]. auto.
      - reflexivity.
      - intros item Hin. now apply elem_of_nil in Hin. }
  destruct (Cart.items cart) as [| cartItem cartItems] eqn:Elines.
  { simpl. split; [| split].
    - intros s' e [= <- _]. auto.
    - reflexivity.
    - intros item Hin. now apply elem_of_nil in Hin. }
  cbn [length Nat.eqb].
  split; [| split; [discriminate |]].
  - intros s' e.
    destruct (checkoutItems _ _ _ _) as [c [e' | [orderItems totalAmount]]] eqn:E;
      [| discriminate].
    intros [= <- <-].
    apply checkoutItems_onlyProducts in E as (Ho & Hp & Hc & Hq & _). auto.
  - intros item Hin Hnone.
    destruct (checkoutItems_missing (cartItem :: cartItems) [] 0%N
                (mkCtx s (products s) []) item Hin Hnone) as (c' & e & ->).
    eauto.
Qed.

Lemma checkout_failure_keeps_cart_and_orders_witness :
  orders (checkout 0 alice cartWithSoldOutLine).1 = orders cartWithSoldOutLine /\
  carts (checkout 0 alice cartWithSoldOutLine).1 = carts cartWithSoldOutLine /\
  payments (checkout 0 alice cartWithSoldOutLine).1 = payments cartWithSoldOutLine /\
  emailQueue (checkout 0 alice cartWithSoldOutLine).1 = emailQueue cartWithSoldOutLine.
Proof.
  destruct (checkout_failure_keeps_cart_and_orders 0 alice cartWithSoldOutLine) as [H _].
  apply (H _ (AppError "Insufficient stock for product Webcam" 400)).
  vm_compute. reflexivity.
Defined.

Lemma cartQuantity_nonneg lines product : 0 <= cartQuantity lines product.
Proof.
  induction lines as [| item lines IH]; simpl; [lia |].
  destruct (decide _); lia.
Qed.

Lemma cartQuantity_cons_eq item lines :
  cartQuantity (item :: lines) (Cart.productId item)
  = Z.pos (Cart.quantity item) + cartQuantity lines (Cart.productId item).
Proof. simpl. now rewrite decide_True. Qed.

Lemma cartQuantity_cons_ne item lines product :
  Cart.productId item <> product ->
  cartQuantity (item :: lines) product = cartQuantity lines product.
Proof. intros H. simpl. now rewrite decide_False. Qed.

Lemma reservedBy_add p q r : reservedBy r (reservedBy q p) = reservedBy (q + r) p.
Proof. unfold reservedBy; simpl. f_equal; lia. Qed.

Lemma reservedBy_0 p : reservedBy 0 p = p.
Proof. destruct p; unfold reservedBy; simpl. f_equal; lia. Qed.

Lemma reserve_reservable p q :
  0 < q -> reservable q p -> Product.reserveStock p q = (reservedBy q p, Saved).
Proof.
  intros Hq ((Hs & Ha & Hr) & Hle). unfold Product.reserveStock.
  destruct (Z.ltb_spec (Product.availableStock p) q) as [Hlt | _]; [lia |].
  apply save_nonNegative. unfold Product.nonNegative; simpl. lia.
Qed.

Lemma snapshot_insert (ps : gmap ObjectId Product.t) id p p' cartItem :
  ps !! id = Some p ->
  Product.price p' = Product.price p ->
  snapshot (<[id := p']> ps) cartItem = snapshot ps cartItem.
Proof.
  intros Hp Hprice. unfold snapshot. f_equal.
  destruct (decide (id = Cart.productId cartItem)) as [<- | Hne].
  - rewrite lookup_insert_eq, Hp. simpl. now rewrite Hprice.
  - now rewrite lookup_insert_ne.
Qed.

(** The loop of the checkout on a cart whose products are all there with
    enough available stock: it runs to its end, every line of the cart
    gives a line of the order with the price of its product, and each
    product has the cart's quantity reserved. *)
Lemma checkoutItems_reservable cartItems : forall orderItems totalAmount c,
  docs c = products (db c) ->
  (forall product, 0 < cartQuantity cartItems product ->
     exists p, docs c !! product = Some p /\ reservable (cartQuantity cartItems product) p) ->
  exists c',
    checkoutItems cartItems orderItems totalAmount c
    = (c', inr (orderItems ++ (snapshot (docs c) <$> cartItems),
                (totalAmount + orderTotal (snapshot (docs c) <$> cartItems))%N)) /\
    onlyProducts c c' /\
    docs c' = products (db c') /\
    forall product,
      products (db c') !! product =
        reservedBy (cartQuantity cartItems product) <$> products (db c) !! product.
Proof.
  induction cartItems as [| cartItem cartItems IH]; intros orderItems totalAmount c Hdocs Hready.
  - exists c. csimpl. rewrite app_nil_r, N.add_0_r.
    split; [reflexivity |]. split; [apply onlyProducts_refl |].
    split; [exact Hdocs |]. intros product.
    destruct (products (db c) !! product); simpl; [now rewrite reservedBy_0 | reflexivity].
  - set (pid := Cart.productId cartItem). set (q := Z.pos (Cart.quantity cartItem)).
    assert (Hq : 0 < q) by (unfold q; lia).
    pose proof (cartQuantity_nonneg cartItems pid) as Hrest.
    destruct (Hready pid) as (p & Hp & Hrp).
    { unfold pid. rewrite cartQuantity_cons_eq. fold q pid. lia. }
    unfold pid in Hrp. rewrite cartQuantity_cons_eq in Hrp. fold q pid in Hrp.
    destruct Hrp as [Hn Hle].
    assert (Hrq : reservable q p) by (split; [exact Hn | lia]).
    set (c1 := mkCtx (setProducts (<[pid := reservedBy q p]> (products (db c))) (db c))
                     (<[pid := reservedBy q p]> (docs c)) (session c)).
    assert (Hstep : invoke Product.reserveStock pid q c = (c1, inr ())).
    { unfold invoke. rewrite Hp. now rewrite (reserve_reservable p q Hq Hrq). }
    destruct (IH (orderItems ++ [Order.mkItem pid (Cart.quantity cartItem) (Product.price p)])
                 (totalAmount + Product.price p * N.pos (Cart.quantity cartItem))%N c1)
      as (c' & Hrun & Hframe & Hdocs' & Hlook).
    { unfold c1; simpl. now rewrite Hdocs. }
    { intros product Hheld. unfold c1; simpl.
      destruct (decide (pid = product)) as [<- | Hne].
      - exists (reservedBy q p). rewrite lookup_insert_eq. split; [reflexivity |].
        destruct Hn as (Hs & Ha & Hr).
        unfold reservable, Product.nonNegative; simpl. lia.
      - rewrite lookup_insert_ne by done.
        destruct (Hready product) as (p' & Hp' & Hrp').
        + rewrite cartQuantity_cons_ne by done. exact Hheld.
        + rewrite cartQuantity_cons_ne in Hrp' by done. now exists p'. }
    assert (Hsnap : snapshot (docs c1) <$> cartItems = snapshot (docs c) <$> cartItems).
    { apply list_fmap_ext. intros i x _. unfold c1; simpl.
      now apply (snapshot_insert _ _ p). }
    exists c'. split; [| split; [| split]].
    + rewrite checkoutItems_cons. fold pid q. rewrite Hp.
      destruct (Z.ltb_spec (Product.availableStock p) q); [lia |].
      assert (Hline : snapshot (docs c) cartItem
                      = Order.mkItem pid (Cart.quantity cartItem) (Product.price p)).
      { unfold snapshot. fold pid. now rewrite Hp. }
      rewrite Hstep, Hrun, Hsnap. rewrite fmap_cons, Hline. f_equal. f_equal.
      rewrite <- app_assoc. simpl. f_equal. lia.
    + eapply onlyProducts_trans; [| exact Hframe]. eapply invoke_onlyProducts, Hstep.
    + exact Hdocs'.
    + intros product. rewrite Hlook.
      destruct (decide (pid = product)) as [<- | Hne].
      * unfold pid. rewrite cartQuantity_cons_eq. fold q pid.
        unfold c1; cbn [db products setProducts].
        rewrite lookup_insert_eq. rewrite <- Hdocs, Hp. cbn [fmap option_fmap option_map].
        now rewrite reservedBy_add.
      * rewrite cartQuantity_cons_ne by done.
        unfold c1; cbn [db products setProducts].
        now rewrite lookup_insert_ne by done.
Qed.

(** X17.  A checkout on a cart that has lines, whose products exist with
    non-negative counters and with an available stock that covers what the
    cart holds of them, succeeds.  The order is stored under an identifier
    that no order had, in [PENDING_PAYMENT], with the deadline fifteen
    minutes after [now], one line for each line of the cart at the price
    the product has, and the sum of the lines as its amount; every product
    has the cart's quantity moved from available to reserved, the cart is
    emptied and no payment is written. *)
Theorem checkout_reserves_and_creates_order
    (now : Z) (user : User.t) (s : State) (cart : Cart.t) :
  carts s !! User._id user = Some cart ->
  Cart.items cart <> [] ->
  (forall product, 0 < cartQuantity (Cart.items cart) product ->
     exists p, products s !! product = Some p /\
               reservable (cartQuantity (Cart.items cart) product) p) ->
  let id := fresh (dom (orders s)) in
  let lines := snapshot (products s) <$> Cart.items cart in
  let order := Order.mk (User._id user) lines (orderTotal lines)
                        Order.PENDING_PAYMENT (now + 900000) in
  exists s',
    checkout now user s = (s', inr (id, order)) /\
    orders s !! id = None /\
    orders s' = <[id := order]> (orders s) /\
    carts s' = <[User._id user := Cart.mk []]> (carts s) /\
    (forall product,
       products s' !! product =
         reservedBy (cartQuantity (Cart.items cart) product) <$> products s !! product) /\
    payments s' = payments s.
Proof.
  intros Hcart Hlines Hready id lines order.
  destruct (checkoutItems_reservable (Cart.items cart) [] 0%N (mkCtx s (products s) []))
    as (c' & Hrun & (Ho & Hp & Hc & Hq & Hs & _) & _ & Hlook);
    [reflexivity | exact Hready |].
  rewrite checkout_run, Hcart.
  destruct (Cart.items cart) as [| cartItem cartItems] eqn:E; [congruence |].
  cbn [length Nat.eqb]. rewrite Hrun. cbn [db docs session] in *.
  rewrite Hs, Ho. cbn [app foldl commit].
  eexists. split; [reflexivity |].
  split; [apply not_elem_of_dom, is_fresh |].
  split; [simpl; now rewrite Ho |].
  split; [simpl; now rewrite Hc |].
  split; [exact Hlook |].
  simpl. exact Hp.
Qed.

Lemma checkout_reserves_and_creates_order_witness :
  let id := fresh (dom (orders cartInStock)) in
  let lines := snapshot (products cartInStock)
                 <$> [Cart.mkItem 10 2; Cart.mkItem 11 1] in
  let order := Order.mk 1 lines (orderTotal lines) Order.PENDING_PAYMENT (0 + 900000) in
  exists s',
    checkout 0 alice cartInStock = (s', inr (id, order)) /\
    orders cartInStock !! id = None /\
    orders s' = <[id := order]> (orders cartInStock) /\
    carts s' = <[1%nat := Cart.mk []]> (carts cartInStock) /\
    (forall product,
       products s' !! product =
         reservedBy (cartQuantity [Cart.mkItem 10 2; Cart.mkItem 11 1] product)
           <$> products cartInStock !! product) /\
    payments s' = payments cartInStock.
Proof.
  apply (checkout_reserves_and_creates_order 0 alice cartInStock
           (Cart.mk [Cart.mkItem 10 2; Cart.mkItem 11 1])).
  - reflexivity.
  - discriminate.
  - intros product Hheld. simpl in Hheld.
    destruct (decide (10%nat = product)) as [<- | H10].
    + exists keyboard. split; [reflexivity |].
      unfold reservable, Product.nonNegative; simpl; lia.
    + destruct (decide (11%nat = product)) as [<- | H11].
      * exists mouse. split; [reflexivity |].
        unfold reservable, Product.nonNegative; simpl; lia.
      * lia.
Defined.

(** ** Payment *)

Lemma pay_rejects now transactionId user id s :
  (orders s !! id = None ->
   pay now transactionId user id s = (s, inl (AppError "Order not found" 404))) /\
  (forall order,
     orders s !! id = Some order ->
     (Order.userId order <> User._id user ->
      pay now transactionId user id s
      = (s, inl (AppError "Unauthorized access to order" 403))) /\
     (Order.userId order = User._id user ->
      Order.status order <> Order.PENDING_PAYMENT ->
      pay now transactionId user id s
      = (s, inl (AppError "Order is not in pending payment status" 400)))).
Proof.
  unfold pay, withTransaction. split.
  - intros Hnone.
    rewrite (bind_returns _ _ _ (mkCtx s (products s) []) None)
      by (unfold Order_findById, populate, gets; rewrite bind_run; simpl; now rewrite Hnone).
    reflexivity.
  - intros order Horder.
    rewrite (bind_returns _ _ _ (mkCtx s (products s) []) (Some order))
      by (unfold Order_findById, populate, gets; rewrite bind_run; simpl; now rewrite Horder).
    split.
    + intros Hne. now rewrite bool_decide_false by exact Hne.
    + intros Howner Hstatus. rewrite bool_decide_true by exact Howner.
      now rewrite bool_decide_false by exact Hstatus.
Qed.

(** X18.  [pay] turns away, with nothing changed in any collection, an
    order that does not exist (404), an order of another user (403) and an
    order of the caller that is not in [PENDING_PAYMENT] (400): an order
    that is already [PAID] or [CANCELLED] is never confirmed or released a
    second time. *)
Theorem pay_rejects_without_effect
    (now : Z) (transactionId : string) (user : User.t) (id : ObjectId) (s : State) :
  (orders s !! id = None ->
   pay now transactionId user id s = (s, inl (AppError "Order not found" 404))) /\
  (forall order,
     orders s !! id = Some order ->
     (Order.userId order <> User._id user ->
      pay now transactionId user id s
      = (s, inl (AppError "Unauthorized access to order" 403))) /\
     (Order.userId order = User._id user ->
      Order.status order <> Order.PENDING_PAYMENT ->
      pay now transactionId user id s
      = (s, inl (AppError "Order is not in pending payment status" 400)))).
Proof. apply pay_rejects. Qed.

Lemma pay_rejects_without_effect_witness :
  pay 0 "TXN_0_k3j9x2m1q" (User.mk 2 "bob@example.com") 20 (shop idleQueue)
  = (shop idleQueue, inl (AppError "Unauthorized access to order" 403)).
Proof.
  destruct (pay_rejects_without_effect 0 "TXN_0_k3j9x2m1q" (User.mk 2 "bob@example.com")
              20%nat (shop idleQueue)) as [_ H].
  destruct (H aliceOrder) as [Hforbidden _]; [reflexivity |].
  apply Hforbidden. discriminate.
Defined.

(** X19.  [pay] by the owner on a pending order that is not expired, with a
    fresh transaction identifier, with lines whose products can be
    confirmed and with the queue in reach, settles the order: the order is
    stored as [PAID], the stock of every line is deducted from [stock] and
    [reservedStock], one payment of the order's amount is recorded with
    status [SUCCESS], and one confirmation job is queued. *)
Theorem pay_settles_the_order
    (now : Z) (transactionId : string) (user : User.t) (id : ObjectId)
    (s : State) (order : Order.t) :
  orders s !! id = Some order ->
  Order.userId order = User._id user ->
  Order.status order = Order.PENDING_PAYMENT ->
  now <= Order.paymentDeadline order ->
  Forall (fun p => Payment.transactionId p <> transactionId) (payments s) ->
  (forall product, 0 < heldBy (Order.items order) product ->
     exists p, products s !! product = Some p /\
               confirmable (heldBy (Order.items order) product) p) ->
  Queue.reachable (emailQueue s) = true ->
  let payment := Payment.mk id transactionId (Order.totalAmount order)
                            Payment.SUCCESS "MOCK_PAYMENT" in
  exists s',
    pay now transactionId user id s
    = (s', inr (Order.setStatus Order.PAID order, payment)) /\
    orders s' = <[id := Order.setStatus Order.PAID order]> (orders s) /\
    (forall product,
       products s' !! product =
         deducted (heldBy (Order.items order) product) <$> products s !! product) /\
    payments s' = payments s ++ [payment] /\
    Queue.jobs (emailQueue s') =
      Queue.jobs (emailQueue s) ++
      [Queue.mkJob "send-confirmation-email" id (User._id user) (User.email user)
                   (Order.totalAmount order)].
Proof. apply pay_settles. Qed.

Lemma aliceOrder_confirmable product :
  0 < heldBy (Order.items aliceOrder) product ->
  exists p, products (shop idleQueue) !! product = Some p /\
            confirmable (heldBy (Order.items aliceOrder) product) p.
Proof.
  intros Hheld. simpl in Hheld.
  destruct (decide (10%nat = product)) as [<- | H10].
  - exists keyboard. split; [reflexivity |].
    unfold confirmable, Product.nonNegative, Product.I1; simpl; lia.
  - destruct (decide (11%nat = product)) as [<- | H11].
    + exists mouse. split; [reflexivity |].
      unfold confirmable, Product.nonNegative, Product.I1; simpl; lia.
    + lia.
Defined.

Lemma pay_settles_the_order_witness :
  let payment := Payment.mk 20 "TXN_600000_k3j9x2m1q" (Order.totalAmount aliceOrder)
                            Payment.SUCCESS "MOCK_PAYMENT" in
  exists s',
    pay 600000 "TXN_600000_k3j9x2m1q" alice 20 (shop idleQueue)
    = (s', inr (Order.setStatus Order.PAID aliceOrder, payment)) /\
    orders s' = <[20%nat := Order.setStatus Order.PAID aliceOrder]> (orders (shop idleQueue)) /\
    (forall product,
       products s' !! product =
         deducted (heldBy (Order.items aliceOrder) product) <$>
         products (shop idleQueue) !! product) /\
    payments s' = payments (shop idleQueue) ++ [payment] /\
    Queue.jobs (emailQueue s') =
      Queue.jobs (emailQueue (shop idleQueue)) ++
      [Queue.mkJob "send-confirmation-email" 20 (User._id alice) (User.email alice)
                   (Order.totalAmount aliceOrder)].
Proof.
  apply (pay_settles_the_order 600000 "TXN_600000_k3j9x2m1q" alice 20%nat
           (shop idleQueue) aliceOrder); try reflexivity.
  - simpl; lia.
  - constructor.
  - apply aliceOrder_confirmable.
Defined.

(** X20.  Paying twice.  After a [pay] that settled an order, every further
    [pay] on the order by its owner, at any time and with any transaction
    identifier, is answered 400 and changes nothing: the stock is not
    deducted again and no second payment is recorded. *)
Theorem pay_twice_charges_once
    (now now' : Z) (transactionId transactionId' : string) (user : User.t) (id : ObjectId)
    (s : State) (order : Order.t) :
  orders s !! id = Some order ->
  Order.userId order = User._id user ->
  Order.status order = Order.PENDING_PAYMENT ->
  now <= Order.paymentDeadline order ->
  Forall (fun p => Payment.transactionId p <> transactionId) (payments s) ->
  (forall product, 0 < heldBy (Order.items order) product ->
     exists p, products s !! product = Some p /\
               confirmable (heldBy (Order.items order) product) p) ->
  Queue.reachable (emailQueue s) = true ->
  exists s' paid,
    pay now transactionId user id s = (s', inr paid) /\
    pay now' transactionId' user id s'
    = (s', inl (AppError "Order is not in pending payment status" 400)).
Proof.
  intros Horder Howner Hstatus Hdeadline Hfresh Hlines Hqueue.
  destruct (pay_settles now transactionId user id s order
              Horder Howner Hstatus Hdeadline Hfresh Hlines Hqueue)
    as (s' & Hpay & Ho & _).
  exists s'. eexists. split; [exact Hpay |].
  destruct (pay_rejects now' transactionId' user id s') as [_ H].
  destruct (H (Order.setStatus Order.PAID order)) as [_ Hpaid].
  - rewrite Ho. apply lookup_insert_eq.
  - apply Hpaid; [exact Howner | discriminate].
Qed.

Lemma pay_twice_charges_once_witness :
  exists s' paid,
    pay 600000 "TXN_600000_k3j9x2m1q" alice 20 (shop idleQueue) = (s', inr paid) /\
    pay 700000 "TXN_700000_p0o9i8u7y" alice 20 s'
    = (s', inl (AppError "Order is not in pending payment status" 400)).
Proof.
  apply (pay_twice_charges_once 600000 700000 "TXN_600000_k3j9x2m1q" "TXN_700000_p0o9i8u7y"
           alice 20%nat (shop idleQueue) aliceOrder); try reflexivity.
  - simpl; lia.
  - constructor.
  - apply aliceOrder_confirmable.
Defined.

(** ** The expiry sweep, run after run *)

Lemma filter_nil_Forall {A : Type} (P : A -> Prop) `{!forall x, Decision (P x)} (l : list A) :
  (forall x, x ∈ l -> ~ P x) -> filter P l = [].
Proof.
  induction l as [| x l IH]; intros Hall; [reflexivity |].
  rewrite filter_cons_False by (apply Hall, list_elem_of_here).
  apply IH. intros y Hy. apply Hall. now apply list_elem_of_further.
Qed.

Lemma filter_all_Forall {A : Type} (P : A -> Prop) `{!forall x, Decision (P x)} (l : list A) :
  (forall x, x ∈ l -> P x) -> filter P l = l.
Proof.
  induction l as [| x l IH]; intros Hall; [reflexivity |].
  rewrite filter_cons_True by (apply Hall, list_elem_of_here).
  f_equal. apply IH. intros y Hy. apply Hall. now apply list_elem_of_further.
Qed.

Lemma cancelExpiredOrders_nothing_expired now s :
  (forall id order, orders s !! id = Some order -> expiredQuery now order = false) ->
  cancelExpiredOrders now s = (s, undefined).
Proof.
  intros Hnone. unfold cancelExpiredOrders.
  rewrite filter_nil_Forall; [reflexivity |].
  intros [id order] Hin. apply elem_of_map_to_list in Hin. simpl.
  rewrite (Hnone _ _ Hin). discriminate.
Qed.

(** X21.  A run of the sweep that finds no order in [PENDING_PAYMENT] past
    its deadline changes nothing, and after any run at time [now] a second
    run at the same time finds none: running the sweep twice is running it
    once, and no reservation is released twice. *)
Theorem cancelExpiredOrders_twice_is_once (now : Z) (s : State) :
  ((forall id order, orders s !! id = Some order -> expiredQuery now order = false) ->
   cancelExpiredOrders now s = (s, undefined)) /\
  cancelExpiredOrders now (cancelExpiredOrders now s).1
  = ((cancelExpiredOrders now s).1, undefined).
Proof.
  split; [apply cancelExpiredOrders_nothing_expired |].
  apply cancelExpiredOrders_nothing_expired. intros id order.
  rewrite cancelExpiredOrders_orders.
  destruct (orders s !! id) as [o |]; simpl; [| discriminate].
  intros [= <-]. unfold swept. destruct (expiredQuery now o) eqn:E; [| exact E].
  reflexivity.
Qed.

Lemma cancelExpiredOrders_twice_is_once_witness :
  cancelExpiredOrders 0 (shop idleQueue) = (shop idleQueue, undefined).
Proof.
  destruct (cancelExpiredOrders_twice_is_once 0 (shop idleQueue)) as [H _].
  apply H. intros id order Horder.
  destruct (decide (id = 20%nat)) as [-> | Hne].
  - injection Horder as <-. reflexivity.
  - unfold shop in Horder; simpl in Horder.
    rewrite lookup_insert_ne in Horder by congruence. discriminate.
Defined.

(** X22.  The sweep first, then the payment.  Once a run of the sweep has
    found an order expired, a [pay] on it by its owner, at any time, is
    answered 400 and changes nothing: the order that the sweep cancelled is
    not released a second time by the pay path. *)
Theorem pay_after_sweep_is_rejected
    (now now' : Z) (transactionId : string) (user : User.t) (id : ObjectId)
    (s : State) (order : Order.t) :
  orders s !! id = Some order ->
  Order.userId order = User._id user ->
  expiredQuery now order = true ->
  pay now' transactionId user id (cancelExpiredOrders now s).1
  = ((cancelExpiredOrders now s).1,
     inl (AppError "Order is not in pending payment status" 400)).
Proof.
  intros Horder Howner Hexpired.
  destruct (pay_rejects now' transactionId user id (cancelExpiredOrders now s).1) as [_ H].
  destruct (H (Order.setStatus Order.CANCELLED order)) as [_ Hcancelled].
  - rewrite cancelExpiredOrders_orders, Horder. simpl. unfold swept. now rewrite Hexpired.
  - apply Hcancelled; [exact Howner | discriminate].
Qed.

Lemma pay_after_sweep_is_rejected_witness :
  pay 1000001 "TXN_1000001_k3j9x2m1q" alice 20 (cancelExpiredOrders 1000000 (shop idleQueue)).1
  = ((cancelExpiredOrders 1000000 (shop idleQueue)).1,
     inl (AppError "Order is not in pending payment status" 400)).
Proof.
  apply (pay_after_sweep_is_rejected 1000000 1000001 "TXN_1000001_k3j9x2m1q" alice 20%nat
           (shop idleQueue) aliceOrder); reflexivity.
Defined.

Lemma heldBy_app lines lines' product :
  heldBy (lines ++ lines') product = heldBy lines product + heldBy lines' product.
Proof.
  induction lines as [| item lines IH]; simpl; [reflexivity |].
  destruct (decide _); lia.
Qed.

Lemma heldBy_elem item lines :
  item ∈ lines -> 0 < heldBy lines (Order.productId item).
Proof.
  induction lines as [| item0 lines IH]; intros Hin.
  - now apply elem_of_nil in Hin.
  - apply elem_of_cons in Hin as [<- | Hin].
    + rewrite heldBy_cons_eq. pose proof (heldBy_nonneg lines (Order.productId item)). lia.
    + simpl. specialize (IH Hin). destruct (decide _); lia.
Qed.

(** One expired order whose products can all be released. *)
Lemma cancelExpiredOrder_releases id order c :
  docs c = products (db c) ->
  (forall product, 0 < heldBy (Order.items order) product ->
     exists p, docs c !! product = Some p /\
               releasable (heldBy (Order.items order) product) p) ->
  exists c',
    cancelExpiredOrder (id, order) c = (c', inr ()) /\
    docs c' = products (db c') /\
    forall product,
      products (db c') !! product =
        movedBack (heldBy (Order.items order) product) <$> products (db c) !! product.
Proof.
  intros Hdocs Hready.
  set (c1 := mkCtx (setOrders (<[id := Order.setStatus Order.CANCELLED order]> (orders (db c)))
                              (db c))
                   (docs c) (session c)).
  destruct (forEach_releaseLine_releasable (Order.items order) c1)
    as (c' & Hrun & _ & Hdocs' & Hlook).
  { exact Hdocs. }
  { exact Hready. }
  exists c'. split; [| split; [exact Hdocs' | exact Hlook]].
  unfold cancelExpiredOrder, try_catch. rewrite bind_run. unfold Order_save at 1. fold c1.
  cbn [Order.items Order.setStatus].
  rewrite forEach_releaseLineIfProduct_filter.
  rewrite filter_all_Forall; [now rewrite Hrun |].
  intros item Hin. destruct (Hready _ (heldBy_elem _ _ Hin)) as (p & Hp & _).
  unfold c1; simpl. rewrite Hp. eauto.
Qed.

Lemma releasable_weaken p q r :
  0 <= q -> 0 <= r -> releasable (q + r) p ->
  releasable q p /\ releasable r (movedBack q p).
Proof. unfold releasable, Product.nonNegative. simpl. lia. Qed.

Lemma forEach_cancelExpiredOrder_releases expired : forall c,
  docs c = products (db c) ->
  (forall product, 0 < heldBy (flat_map (fun o => Order.items o.2) expired) product ->
     exists p, docs c !! product = Some p /\
               releasable (heldBy (flat_map (fun o => Order.items o.2) expired) product) p) ->
  exists c',
    forEach cancelExpiredOrder expired c = (c', inr ()) /\
    docs c' = products (db c') /\
    forall product,
      products (db c') !! product =
        movedBack (heldBy (flat_map (fun o : ObjectId * Order.t => Order.items o.2) expired) product)
          <$> products (db c) !! product.
Proof.
  induction expired as [| [id order] expired IH]; intros c Hdocs Hready.
  - exists c. split; [reflexivity |]. split; [exact Hdocs |]. intros product. simpl.
    destruct (products (db c) !! product); simpl; [now rewrite movedBack_0 | reflexivity].
  - cbn [flat_map snd] in Hready |- *.
    destruct (cancelExpiredOrder_releases id order c Hdocs) as (c1 & Hrun & Hdocs1 & Hlook1).
    { intros product Hheld.
      pose proof (heldBy_nonneg (Order.items order) product) as Hfirst.
      pose proof (heldBy_nonneg (flat_map (fun o => Order.items o.2) expired) product) as Hrest.
      destruct (Hready product) as (p & Hp & Hrp).
      - rewrite heldBy_app. lia.
      - rewrite heldBy_app in Hrp.
        exists p. split; [exact Hp |].
        apply (releasable_weaken p _ _ Hfirst Hrest Hrp). }
    destruct (IH c1 Hdocs1) as (c' & Hrun' & Hdocs' & Hlook').
    { intros product Hheld.
      pose proof (heldBy_nonneg (Order.items order) product) as Hfirst.
      pose proof (heldBy_nonneg (flat_map (fun o => Order.items o.2) expired) product) as Hrest.
      destruct (Hready product) as (p & Hp & Hrp).
      - rewrite heldBy_app. lia.
      - rewrite heldBy_app in Hrp.
        exists (movedBack (heldBy (Order.items order) product) p). split.
        + rewrite Hdocs1, Hlook1, <- Hdocs, Hp. reflexivity.
        + apply (releasable_weaken p _ _ Hfirst Hrest Hrp). }
    exists c'. rewrite forEach_cons, Hrun. split; [exact Hrun' |].
    split; [exact Hdocs' |]. intros product.
    rewrite Hlook', Hlook1, heldBy_app.
    destruct (products (db c) !! product); simpl; [| reflexivity].
    now rewrite movedBack_add.
Qed.

(** X23.  The sweep gives back what the expired orders hold.  When every
    product that a line of an expired order refers to exists with
    non-negative counters and holds in [reservedStock] at least the
    quantity of all these lines, a run of the sweep moves, for every
    product, exactly that quantity from [reservedStock] back to
    [availableStock], and leaves [stock] and the payments as they were. *)
Theorem cancelExpiredOrders_releases_expired_lines (now : Z) (s : State) :
  (forall product, 0 < heldBy (expiredLines now s) product ->
     exists p, products s !! product = Some p /\
               releasable (heldBy (expiredLines now s) product) p) ->
  (forall product,
     products (cancelExpiredOrders now s).1 !! product =
       movedBack (heldBy (expiredLines now s) product) <$> products s !! product) /\
  payments (cancelExpiredOrders now s).1 = payments s.
Proof.
  intros Hready. unfold cancelExpiredOrders, expiredLines in *.
  set (expired := filter _ (map_to_list (orders s))) in *.
  destruct (Nat.eqb_spec (length expired) 0) as [Hlen | Hlen].
  - apply length_zero_iff_nil in Hlen. rewrite Hlen. simpl. split; [| reflexivity].
    intros product. destruct (products s !! product); simpl; [| reflexivity].
    now rewrite movedBack_0.
  - destruct (forEach_cancelExpiredOrder_releases expired (mkCtx s (products s) []))
      as (c' & Hrun & _ & Hlook); [reflexivity | exact Hready |].
    destruct (forEach_cancelExpiredOrder expired (mkCtx s (products s) []))
      as (c'' & Hrun'' & _ & Hp & _).
    rewrite Hrun in Hrun''. injection Hrun'' as <-.
    assert (Hsweep : (populate ;; forEach cancelExpiredOrder expired) (mkCtx s ∅ [])
                     = (c', inr ())).
    { rewrite bind_run. unfold populate at 1. cbn [db docs session]. exact Hrun. }
    rewrite Hsweep. cbn [fst]. split; [exact Hlook | exact Hp].
Qed.

Lemma cancelExpiredOrders_releases_expired_lines_witness :
  (forall product,
     products (cancelExpiredOrders 1000000 (shop idleQueue)).1 !! product =
       movedBack (heldBy (expiredLines 1000000 (shop idleQueue)) product)
         <$> products (shop idleQueue) !! product) /\
  payments (cancelExpiredOrders 1000000 (shop idleQueue)).1 = payments (shop idleQueue).
Proof.
  apply (cancelExpiredOrders_releases_expired_lines 1000000 (shop idleQueue)).
  intros product Hheld.
  change (expiredLines 1000000 (shop idleQueue)) with (Order.items aliceOrder) in *.
  simpl in Hheld.
  destruct (decide (10%nat = product)) as [<- | H10].
  - exists keyboard. split; [reflexivity |].
    unfold releasable, Product.nonNegative; simpl; lia.
  - destruct (decide (11%nat = product)) as [<- | H11].
    + exists mouse. split; [reflexivity |].
      unfold releasable, Product.nonNegative; simpl; lia.
    + lia.
Defined.

(** ** The stock counters under every request *)

Lemma ledgerMethod_sound method this quantity :
  ledgerMethod method ->
  Product.I1 this ->
  Product.I1 (method this quantity).1 /\
  ((method this quantity).2 = Saved -> Product.nonNegative (method this quantity).1).
Proof.
  intros [-> | [-> | ->]] HI1; unfold Product.I1 in *;
    unfold Product.reserveStock, Product.releaseReservedStock,
           Product.confirmStockDeduction;
    match goal with |- context [if ?b then _ else _] => destruct b end;
    cbn [fst snd]; (split; [| try discriminate]);
    try exact HI1;
    try (rewrite save_fst; simpl; lia);
    match goal with
    | |- (Product.save ?x).2 = Saved -> _ =>
        destruct (Product.save x) as [this' r] eqn:Hsave; cbn [fst snd];
        intros ->; apply save_Saved in Hsave as [-> Hsave]; exact Hsave
    end.
Qed.

Lemma keeps_ret {A : Type} (x : A) : keeps (mret x).
Proof. intros c Hc. exact Hc. Qed.

Lemma keeps_throw {A : Type} (e : exn) : keeps (@throw A e).
Proof. intros c Hc. exact Hc. Qed.

Lemma keeps_gets {A : Type} (f : Ctx -> A) : keeps (gets f).
Proof. intros c Hc. exact Hc. Qed.

Lemma keeps_bind {A B : Type} (m : M A) (k : A -> M B) :
  keeps m -> (forall x, keeps (k x)) -> keeps (m ≫= k).
Proof.
  intros Hm Hk c Hc. rewrite bind_run. specialize (Hm c Hc).
  destruct (m c) as [c' [e | x]]; [exact Hm |]. apply Hk, Hm.
Qed.

Lemma keeps_try_catch {A : Type} (body : M A) (handler : exn -> M A) :
  keeps body -> (forall e, keeps (handler e)) -> keeps (try_catch body handler).
Proof.
  intros Hm Hk c Hc. unfold try_catch. specialize (Hm c Hc).
  destruct (body c) as [c' [e | x]]; [apply Hk, Hm | exact Hm].
Qed.

Lemma keeps_forEach {A : Type} (f : A -> M unit) (l : list A) :
  (forall x, keeps (f x)) -> keeps (forEach f l).
Proof.
  intros Hf. induction l as [| x l IH]; [apply keeps_ret |].
  apply keeps_bind; [apply Hf | intros _; exact IH].
Qed.

Lemma keeps_populate : keeps populate.
Proof.
  intros c [Hdb _]. split; [exact Hdb |].
  intros id p Hp. exact (proj1 (Hdb id p Hp)).
Qed.

Lemma keeps_db_products {A : Type} (m : M A) :
  (forall c, products (db (m c).1) = products (db c) /\ docs (m c).1 = docs c) ->
  keeps m.
Proof.
  intros Hm c [Hdb Hdocs]. destruct (Hm c) as [Hp Hd].
  split.
  - intros id p. rewrite Hp. apply Hdb.
  - intros id p. rewrite Hd. apply Hdocs.
Qed.

Lemma keeps_Order_save id order : keeps (Order_save id order).
Proof. apply keeps_db_products. intros c. split; reflexivity. Qed.

Lemma keeps_Cart_clearCart userId cart : keeps (Cart_clearCart userId cart).
Proof. apply keeps_db_products. intros c. split; reflexivity. Qed.

Lemma keeps_Order_create doc : keeps (Order_create doc).
Proof. apply keeps_db_products. intros c. split; reflexivity. Qed.

Lemma keeps_Payment_create doc : keeps (Payment_create doc).
Proof.
  apply keeps_db_products. intros c. unfold Payment_create.
  destruct (existsb _ _); split; reflexivity.
Qed.

Lemma keeps_emailQueue_add job : keeps (emailQueue_add job).
Proof.
  apply keeps_db_products. intros c. unfold emailQueue_add.
  destruct (Queue.reachable _); split; reflexivity.
Qed.

Lemma keeps_invoke method product quantity :
  ledgerMethod method -> keeps (invoke method product quantity).
Proof.
  intros Hmethod c [Hdb Hdocs]. unfold invoke.
  destruct (docs c !! product) as [this |] eqn:Hthis; [| split; assumption].
  destruct (ledgerMethod_sound method this quantity Hmethod (Hdocs _ _ Hthis))
    as [HI1 Hsaved].
  destruct (method this quantity) as [this' r]. cbn [fst snd] in *.
  assert (Hdocs' : forall id p, <[product := this']> (docs c) !! id = Some p -> Product.I1 p).
  { intros id p. destruct (decide (id = product)) as [-> | Hne].
    - rewrite lookup_insert_eq. now intros [= <-].
    - rewrite lookup_insert_ne by congruence. apply Hdocs. }
  destruct r as [| e]; cbn [fst]; split; cbn [db docs]; try assumption.
  intros id p. cbn [products setProducts].
  destruct (decide (id = product)) as [-> | Hne].
  - rewrite lookup_insert_eq. intros [= <-]. split; [exact HI1 | now apply Hsaved].
  - rewrite lookup_insert_ne by congruence. apply Hdb.
Qed.

Lemma keeps_checkoutItems cartItems : forall orderItems totalAmount,
  keeps (checkoutItems cartItems orderItems totalAmount).
Proof.
  induction cartItems as [| cartItem cartItems IH]; intros orderItems totalAmount.
  - apply keeps_ret.
  - cbn [checkoutItems]. apply keeps_bind; [apply keeps_gets |].
    intros [product |]; [| apply keeps_throw].
    destruct (_ <? _); [apply keeps_throw |].
    apply keeps_bind; [apply keeps_invoke; now left | intros _; apply IH].
Qed.

Lemma keeps_releaseLine item : keeps (releaseLine item).
Proof. apply keeps_invoke. right; now left. Qed.

Lemma keeps_confirmLine item : keeps (confirmLine item).
Proof. apply keeps_invoke. right; now right. Qed.

Lemma keeps_cancelExpiredOrder expired : keeps (cancelExpiredOrder expired).
Proof.
  destruct expired as [id order]. apply keeps_try_catch; [| intros e; apply keeps_ret].
  apply keeps_bind; [apply keeps_Order_save | intros _].
  apply keeps_forEach. intros item.
  apply keeps_bind; [apply keeps_gets |].
  intros [product |]; [apply keeps_releaseLine | apply keeps_ret].
Qed.

Lemma commit_products w s : products (commit w s) = products s.
Proof. now destruct w. Qed.

Lemma commits_products ws : forall s,
  products (foldl (fun s w => commit w s) s ws) = products s.
Proof.
  induction ws as [| w ws IH]; intros s; [reflexivity |].
  simpl. now rewrite IH, commit_products.
Qed.

Lemma withTransaction_stockSound {A : Type} (body : M A) (s : State) :
  keeps body -> stockSound s -> stockSound (withTransaction body s).1.
Proof.
  intros Hbody Hs. unfold withTransaction, endTransaction.
  assert (Hc : ctxSound (body (mkCtx s ∅ [])).1).
  { apply Hbody. split; [exact Hs |]. intros id p. cbn [docs].
    rewrite lookup_empty. discriminate. }
  destruct (body (mkCtx s ∅ [])) as [c [e | a]]; cbn [fst] in *.
  - exact (proj1 Hc).
  - intros id p. rewrite commits_products. apply (proj1 Hc).
Qed.

Lemma keeps_checkout_body now user :
  keeps (cart ← Cart_findOne (User._id user) ;
         match cart with
         | None => throw (AppError "Cart is empty" 400)
         | Some cart =>
             if (length (Cart.items cart) =? 0)%nat then
               throw (AppError "Cart is empty" 400)
             else
               '(orderItems, totalAmount) ← checkoutItems (Cart.items cart) [] 0%N ;
               order ← Order_create (Order.mk (User._id user) orderItems totalAmount
                                              Order.PENDING_PAYMENT
                                              (Order.defaultPaymentDeadline now)) ;
               Cart_clearCart (User._id user) cart ;;
               mret order
         end).
Proof.
  apply keeps_bind.
  { apply keeps_bind; [apply keeps_populate | intros _; apply keeps_gets]. }
  intros [cart |]; [| apply keeps_throw].
  destruct (_ =? _)%nat; [apply keeps_throw |].
  apply keeps_bind; [apply keeps_checkoutItems |]. intros [orderItems totalAmount].
  apply keeps_bind; [apply keeps_Order_create |]. intros order.
  apply keeps_bind; [apply keeps_Cart_clearCart | intros _; apply keeps_ret].
Qed.

Lemma checkout_stockSound now user s :
  stockSound s -> stockSound (checkout now user s).1.
Proof. apply withTransaction_stockSound, keeps_checkout_body. Qed.

Lemma pay_stockSound now transactionId user id s :
  stockSound s -> stockSound (pay now transactionId user id s).1.
Proof.
  apply withTransaction_stockSound.
  apply keeps_bind.
  { apply keeps_bind; [apply keeps_populate | intros _; apply keeps_gets]. }
  intros [order |]; [| apply keeps_throw].
  destruct (negb _); [apply keeps_throw |].
  destruct (negb _); [apply keeps_throw |].
  destruct (Order.isExpired now order).
  - apply keeps_bind; [apply keeps_Order_save | intros _].
    apply keeps_bind; [| intros _; apply keeps_throw].
    apply keeps_forEach, keeps_releaseLine.
  - apply keeps_bind; [apply keeps_Payment_create | intros payment].
    apply keeps_bind; [apply keeps_Order_save | intros _].
    apply keeps_bind; [apply keeps_forEach, keeps_confirmLine | intros _].
    apply keeps_bind; [apply keeps_emailQueue_add | intros _; apply keeps_ret].
Qed.

Lemma cancelExpiredOrders_stockSound now s :
  stockSound s -> stockSound (cancelExpiredOrders now s).1.
Proof.
  intros Hs. unfold cancelExpiredOrders.
  destruct (_ =? _)%nat; [exact Hs |].
  assert (Hc : ctxSound
            ((populate ;; forEach cancelExpiredOrder
                 (filter (fun o => expiredQuery now o.2 = true) (map_to_list (orders s))))
               (mkCtx s ∅ [])).1).
  { apply keeps_bind; [apply keeps_populate | intros _ |].
    - apply keeps_forEach, keeps_cancelExpiredOrder.
    - split; [exact Hs |]. intros id p. cbn [docs]. rewrite lookup_empty. discriminate. }
  destruct ((populate ;; forEach cancelExpiredOrder _) (mkCtx s ∅ [])) as [c r].
  exact (proj1 Hc).
Qed.

Lemma createProduct_stockSound name price stock s :
  stockSound s -> stockSound (createProduct name price stock s).1.
Proof.
  intros Hs. unfold createProduct.
  destruct (Product.save _) as [product [| e]] eqn:Hsave; [| exact Hs].
  apply save_Saved in Hsave as [-> Hnn]. cbn [fst].
  intros id p. cbn [products setProducts].
  destruct (decide (id = fresh (dom (products s)))) as [-> | Hne].
  - rewrite lookup_insert_eq. intros [= <-]. split; [| exact Hnn].
    unfold Product.I1. simpl. lia.
  - rewrite lookup_insert_ne by congruence. apply Hs.
Qed.

Lemma updateProduct_stockSound id name price stock s :
  stockSound s -> stockSound (updateProduct id name price stock s).1.
Proof.
  intros Hs. unfold updateProduct.
  destruct (products s !! id) as [product |] eqn:Hproduct; [| exact Hs].
  destruct (Hs _ _ Hproduct) as [HI1 _].
  destruct (Product.save _) as [product' [| e]] eqn:Hsave; [| exact Hs].
  apply save_Saved in Hsave as [-> Hnn]. cbn [fst].
  intros id' p. cbn [products setProducts].
  destruct (decide (id' = id)) as [-> | Hne].
  - rewrite lookup_insert_eq. intros [= <-]. split; [| exact Hnn].
    unfold Product.I1 in *.
    destruct name as [name |]; [destruct (bool_decide _) |];
      (destruct price as [price |]; [destruct (price =? 0)%N |]);
      destruct stock as [stock |]; simpl; lia.
  - rewrite lookup_insert_ne by congruence. apply Hs.
Qed.

Lemma deleteProduct_stockSound id s :
  stockSound s -> stockSound (deleteProduct id s).1.
Proof.
  intros Hs. unfold deleteProduct.
  destruct (products s !! id); [| exact Hs].
  intros id' p. cbn [fst products setProducts].
  intros Hp. apply lookup_delete_Some in Hp as [_ Hp]. exact (Hs _ _ Hp).
Qed.

Lemma cart_routes_products r s :
  is_Some (cartRequestUser r) -> products (handle r s) = products s.
Proof.
  destruct r; intros [u Hu]; try discriminate; cbn [handle].
  - unfold getCart, Cart_findOrCreate. now destruct (carts s !! _).
  - unfold addCartItem. destruct (products s !! productId); [| reflexivity].
    destruct (_ <? _); [reflexivity |].
    unfold Cart_findOrCreate.
    destruct (carts s !! _); cbn zeta iota; now destruct (Cart.addItem _ _ _).
  - unfold updateCartItem. destruct (_ || _); [reflexivity |].
    destruct (products s !! productId); [| reflexivity].
    destruct (carts s !! _); [| reflexivity].
    match goal with |- context [if ?b then _ else _] => destruct b end; [reflexivity |].
    now destruct (Cart.updateItemQuantity _ _ _).
  - unfold removeCartItem. now destruct (carts s !! _).
  - unfold clearCartRoute. now destruct (carts s !! _).
Qed.

Lemma adminUpdateStatus_products id status s :
  products (adminUpdateStatus id status s).1 = products s.
Proof.
  unfold adminUpdateStatus. destruct (orders s !! id); [| reflexivity].
  now destruct (Order.updateStatus _ _) as [order [| e]].
Qed.

Lemma handle_stockSound r s : stockSound s -> stockSound (handle r s).
Proof.
  intros Hs.
  destruct (cartRequestUser r) as [u |] eqn:Hcart.
  { intros id p. rewrite cart_routes_products by eauto. apply Hs. }
  destruct r; try discriminate; cbn [handle].
  - now apply createProduct_stockSound.
  - now apply updateProduct_stockSound.
  - now apply deleteProduct_stockSound.
  - now apply checkout_stockSound.
  - now apply pay_stockSound.
  - intros id' p. rewrite adminUpdateStatus_products. apply Hs.
  - now apply cancelExpiredOrders_stockSound.
Qed.

(** X24.  Invariant I1 at every observable state.  When the requests of the
    product, cart, order and admin routes and the runs of the sweep are
    handled one after the other, from collections in which every product
    has [stock = availableStock + reservedStock] and no negative counter,
    every product of the collections they leave has both again: whatever a
    handler does and wherever it fails, no request stores a product that
    breaks I1 or has a negative counter. *)
Theorem requests_keep_I1 (rs : list Request) (s : State) :
  stockSound s -> stockSound (handleAll rs s).
Proof.
  revert s. induction rs as [| r rs IH]; intros s Hs; [exact Hs |].
  apply IH, handle_stockSound, Hs.
Qed.

Lemma requests_keep_I1_witness :
  stockSound (handleAll [Checkout 0 alice; DeleteProduct 11; Pay 5 "TXN_5_k3j9x2m1q" alice 20;
                         CancelExpiredOrders 1000000]
                        (shop idleQueue)).
Proof.
  apply requests_keep_I1.
  intros id p Hp.
  destruct (decide (id = 10%nat)) as [-> | H10].
  { change (Some keyboard = Some p) in Hp. injection Hp as <-.
    unfold Product.I1, Product.nonNegative; simpl; lia. }
  destruct (decide (id = 11%nat)) as [-> | H11].
  { change (Some mouse = Some p) in Hp. injection Hp as <-.
    unfold Product.I1, Product.nonNegative; simpl; lia. }
  exfalso. unfold shop in Hp; simpl in Hp.
  repeat (rewrite lookup_insert_ne in Hp by congruence).
  discriminate.
Defined.

(** ** The carts and the orders under every request *)







Lemma cart_routes_orders r s :
  is_Some (cartRequestUser r) -> orders (handle r s) = orders s.
Proof.
  destruct r; intros [u Hu]; try discriminate; cbn [handle].
  - unfold getCart, Cart_findOrCreate. now destruct (carts s !! _).
  - unfold addCartItem. destruct (products s !! productId); [| reflexivity].
    destruct (_ <? _); [reflexivity |].
    unfold Cart_findOrCreate.
    destruct (carts s !! _); cbn zeta iota; now destruct (Cart.addItem _ _ _).
  - unfold updateCartItem. destruct (_ || _); [reflexivity |].
    destruct (products s !! productId); [| reflexivity].
    destruct (carts s !! _); [| reflexivity].
    match goal with |- context [if ?b then _ else _] => destruct b end; [reflexivity |].
    now destruct (Cart.updateItemQuantity _ _ _).
  - unfold removeCartItem. now destruct (carts s !! _).
  - unfold clearCartRoute. now destruct (carts s !! _).
Qed.

Lemma product_routes_frame r s :
  match r with
  | CreateProduct _ _ _ | UpdateProduct _ _ _ _ | DeleteProduct _ => True
  | _ => False
  end ->
  orders (handle r s) = orders s /\ carts (handle r s) = carts s.
Proof.
  destruct r; intros []; cbn [handle].
  - unfold createProduct. now destruct (Product.save _) as [product [| e]].
  - unfold updateProduct. destruct (products s !! id); [| now split].
    now destruct (Product.save _) as [product [| e]].
  - unfold deleteProduct. now destruct (products s !! id).
Qed.

Lemma checkout_frame now user s :
  (orders (checkout now user s).1 = orders s /\ carts (checkout now user s).1 = carts s) \/
  (exists cart order,
     carts s !! User._id user = Some cart /\
     cartLine <$> Order.items order = Cart.items cart /\
     Order.totalAmount order = orderTotal (Order.items order) /\
     orders (checkout now user s).1 = <[fresh (dom (orders s)) := order]> (orders s) /\
     carts (checkout now user s).1 = <[User._id user := Cart.clearCart cart]> (carts s)).
Proof.
  rewrite checkout_run.
  destruct (carts s !! User._id user) as [cart |] eqn:Hcart; [| now left].
  destruct (length (Cart.items cart) =? 0)%nat; [now left |].
  destruct (checkoutItems _ _ _ _) as [c [e | [orderItems totalAmount]]] eqn:Hloop;
    pose proof (checkoutItems_onlyProducts _ _ _ _ _ _ Hloop) as (Ho & _ & Hc & _ & Hs & _);
    cbn [db session orders carts] in Ho, Hc, Hs.
  - left. now split.
  - right. apply checkoutItems_returns in Hloop as (added & -> & -> & Hlines).
    exists cart, (Order.mk (User._id user) added (orderTotal added) Order.PENDING_PAYMENT
                           (Order.defaultPaymentDeadline now)).
    split; [reflexivity |].
    rewrite Hs, Ho, Hc. cbn [app foldl commit fst orders carts setOrders setCarts Order.items
                             Order.totalAmount].
    rewrite ?Ho, ?Hc, N.add_0_l.
    split; [exact Hlines |]. split; [reflexivity |]. split; reflexivity.
Qed.

Lemma pay_overdue
    (now : Z) (transactionId : string) (user : User.t) (id : ObjectId)
    (s : State) (order : Order.t) :
  orders s !! id = Some order ->
  Order.userId order = User._id user ->
  Order.status order = Order.PENDING_PAYMENT ->
  Order.paymentDeadline order < now ->
  pay now transactionId user id s =
    endTransaction (
      (Order_save id (Order.setStatus Order.CANCELLED order) ;;
       forEach releaseLine (Order.items order) ;;
       throw OrderExpired : M (Order.t * Payment.t))
      (mkCtx s (products s) [])).
Proof.
  intros Horder Howner Hstatus Hdeadline.
  unfold pay, withTransaction.
  rewrite (bind_returns _ _ _ (mkCtx s (products s) []) (Some order))
    by (unfold Order_findById, populate, gets; rewrite bind_run; simpl; now rewrite Horder).
  rewrite Howner, bool_decide_true by reflexivity.
  rewrite Hstatus, bool_decide_true by reflexivity.
  replace (Order.isExpired now order) with true.
  2:{ unfold Order.isExpired. rewrite Hstatus, bool_decide_true by reflexivity.
      symmetry. apply Z.ltb_lt. exact Hdeadline. }
  reflexivity.
Qed.

(** What a [pay] leaves of the orders and the carts, on every path. *)
Lemma pay_frame now transactionId user id s :
  carts (pay now transactionId user id s).1 = carts s /\
  (orders (pay now transactionId user id s).1 = orders s \/
   exists order target,
     orders s !! id = Some order /\
     allowedTransition (Order.status order) target = true /\
     orders (pay now transactionId user id s).1
     = <[id := Order.setStatus target order]> (orders s)).
Proof.
  destruct (pay_rejects now transactionId user id s) as [Hmissing Hrejected].
  destruct (pay now transactionId user id s) as [s' result] eqn:Hpay. cbn [fst].
  destruct (orders s !! id) as [order |] eqn:Horder;
    [| injection (Hmissing eq_refl) as <- _; split; [| left]; reflexivity].
  destruct (Hrejected order eq_refl) as [Hother Hstatus].
  destruct (decide (Order.userId order = User._id user)) as [Howner | Howner];
    [| injection (Hother Howner) as <- _; split; [| left]; reflexivity].
  destruct (decide (Order.status order = Order.PENDING_PAYMENT)) as [Hpending | Hpending];
    [| injection (Hstatus Howner Hpending) as <- _; split; [| left]; reflexivity].
  clear Hmissing Hrejected Hother Hstatus.
  assert (Hmoved : forall target c,
            (target = Order.PAID \/ target = Order.CANCELLED) ->
            orders (db c) = <[id := Order.setStatus target order]> (orders s) ->
            carts (db c) = carts s ->
            s' = db c ->
            carts s' = carts s /\
            (orders s' = orders s \/
             exists order0 target0,
               Some order = Some order0 /\
               allowedTransition (Order.status order0) target0 = true /\
               orders s' = <[id := Order.setStatus target0 order0]> (orders s))).
  { intros target c Htarget Ho Hc ->. split; [exact Hc |].
    right. exists order, target. split; [reflexivity |]. split; [| exact Ho].
    rewrite Hpending. now destruct Htarget as [-> | ->]. }
  destruct (Z.le_gt_cases now (Order.paymentDeadline order)) as [Hdeadline | Hdeadline].
  - rewrite (pay_pending now transactionId user id s order Horder Howner Hpending Hdeadline)
      in Hpay.
    rewrite bind_run in Hpay. unfold Payment_create at 1 in Hpay.
    cbn [db session payments] in Hpay.
    destruct (existsb _ _);
      [injection Hpay as <- _; split; [| left]; reflexivity |].
    rewrite bind_run in Hpay. unfold Order_save at 1 in Hpay. cbn [db docs session] in Hpay.
    rewrite bind_run in Hpay.
    destruct (forEach confirmLine (Order.items order) _) as [c3 [e | []]] eqn:Hloop;
      pose proof (forEach_onlyProducts _ _
                    (fun x c c' r => invoke_onlyProducts _ _ _ c c' r) _ _ _ Hloop)
        as (Ho & _ & Hc & _ & Hs & _);
      cbn [db session orders carts setOrders] in Ho, Hc, Hs.
    + injection Hpay as <- _. apply (Hmoved Order.PAID c3); auto.
    + rewrite bind_run in Hpay. unfold emailQueue_add at 1 in Hpay.
      destruct (Queue.reachable _); cbn [endTransaction db session] in Hpay.
      * rewrite Hs in Hpay. injection Hpay as <- _.
        refine (Hmoved Order.PAID (mkCtx _ ∅ []) _ _ _ eq_refl); auto.
      * injection Hpay as <- _. apply (Hmoved Order.PAID c3); auto.
  - rewrite (pay_overdue now transactionId user id s order Horder Howner Hpending
               ltac:(lia)) in Hpay.
    rewrite bind_run in Hpay. unfold Order_save at 1 in Hpay. cbn [db docs session] in Hpay.
    rewrite bind_run in Hpay.
    destruct (forEach releaseLine (Order.items order) _) as [c3 [e | []]] eqn:Hloop;
      pose proof (forEach_onlyProducts _ _
                    (fun x c c' r => invoke_onlyProducts _ _ _ c c' r) _ _ _ Hloop)
        as (Ho & _ & Hc & _ & Hs & _);
      cbn [db session orders carts setOrders] in Ho, Hc, Hs;
      injection Hpay as <- _; apply (Hmoved Order.CANCELLED c3); auto.
Qed.



Lemma adminUpdateStatus_frame id status s :
  carts (adminUpdateStatus id status s).1 = carts s /\
  (orders (adminUpdateStatus id status s).1 = orders s \/
   exists order,
     orders s !! id = Some order /\
     allowedTransition (Order.status order) status = true /\
     orders (adminUpdateStatus id status s).1
     = <[id := Order.setStatus status order]> (orders s)).
Proof.
  unfold adminUpdateStatus.
  destruct (orders s !! id) as [order |] eqn:Horder; [| split; [| left]; reflexivity].
  destruct (Order.updateStatus order status) as [order' [| e]] eqn:Hupdate;
    [| split; [| left]; reflexivity].
  apply updateStatus_Saved in Hupdate as (-> & Hallowed & _).
  split; [reflexivity |]. right. exists order. now repeat split.
Qed.

Lemma insert_oneArrow (os : gmap ObjectId Order.t) id order target id' order' :
  os !! id = Some order ->
  allowedTransition (Order.status order) target = true ->
  os !! id' = Some order' ->
  exists order'', <[id := Order.setStatus target order]> os !! id' = Some order'' /\
                  oneArrow order' order''.
Proof.
  intros Horder Hallowed Horder'.
  destruct (decide (id' = id)) as [-> | Hne].
  - rewrite lookup_insert_eq. eexists. split; [reflexivity |].
    right. exists target. rewrite Horder in Horder'. injection Horder' as <-. now split.
  - rewrite lookup_insert_ne by congruence. exists order'. split; [exact Horder' | now left].
Qed.

Lemma swept_oneArrow now order : oneArrow order (swept now order).
Proof.
  unfold swept. destruct (expiredQuery now order) eqn:Hq; [| now left].
  right. exists Order.CANCELLED. split; [| reflexivity].
  unfold expiredQuery in Hq. apply andb_true_iff in Hq as [Hstatus _].
  apply bool_decide_eq_true in Hstatus. now rewrite Hstatus.
Qed.

(** Every request leaves every order in place, moved by one arrow of the
    table at most. *)
Lemma handle_oneArrow r s id order :
  orders s !! id = Some order ->
  exists order', orders (handle r s) !! id = Some order' /\ oneArrow order order'.
Proof.
  intros Horder.
  assert (Hsame : orders (handle r s) = orders s ->
                  exists order', orders (handle r s) !! id = Some order' /\
                                 oneArrow order order').
  { intros ->. exists order. split; [exact Horder | now left]. }
  destruct (cartRequestUser r) as [u |] eqn:Hcart.
  { apply Hsame, cart_routes_orders. eauto. }
  destruct r; try discriminate; cbn [handle] in *;
    try (apply Hsame; now apply (product_routes_frame _ s)).
  - apply Hsame. apply (product_routes_frame (CreateProduct name price stock) s I).
  - apply Hsame. apply (product_routes_frame (UpdateProduct id0 name price stock) s I).
  - apply Hsame. apply (product_routes_frame (DeleteProduct id0) s I).
  - destruct (checkout_frame now user s)
      as [[Ho _] | (cart & order' & _ & _ & _ & Ho & _)]; [now apply Hsame |].
    rewrite Ho. exists order. split; [| now left].
    rewrite lookup_insert_ne; [exact Horder |].
    intros <-. apply (is_fresh (dom (orders s))). apply elem_of_dom. eauto.
  - destruct (pay_frame now transactionId user id0 s)
      as [_ [Ho | (order0 & target & Horder0 & Hallowed & Ho)]]; [now apply Hsame |].
    rewrite Ho. now apply (insert_oneArrow _ _ order0).
  - destruct (adminUpdateStatus_frame id0 status s)
      as [_ [Ho | (order0 & Horder0 & Hallowed & Ho)]]; [now apply Hsame |].
    rewrite Ho. now apply (insert_oneArrow _ _ order0).
  - rewrite cancelExpiredOrders_orders, Horder. eexists. split; [reflexivity |].
    apply swept_oneArrow.
Qed.








(** X26.  One request, one arrow at most.  Whatever request is handled, an
    order of the collection is still there afterwards, with its user, its
    lines, its total amount and its deadline as they were, and with its
    status either unchanged or moved along one arrow of the transition
    table: no route deletes an order, rewrites its lines or skips a
    status. *)
Theorem request_moves_an_order_one_arrow_at_most
    (r : Request) (s : State) (id : ObjectId) (order : Order.t) :
  orders s !! id = Some order ->
  exists order',
    orders (handle r s) !! id = Some order' /\
    Order.userId order' = Order.userId order /\
    Order.items order' = Order.items order /\
    Order.totalAmount order' = Order.totalAmount order /\
    Order.paymentDeadline order' = Order.paymentDeadline order /\
    (Order.status order' = Order.status order \/
     allowedTransition (Order.status order) (Order.status order') = true).
Proof.
  intros Horder.
  destruct (handle_oneArrow r s id order Horder) as (order' & Hlook & Harrow).
  exists order'. split; [exact Hlook |].
  destruct Harrow as [-> | (target & Hallowed & ->)]; cbn.
  - repeat split; now left.
  - repeat split; now right.
Qed.

Lemma request_moves_an_order_one_arrow_at_most_witness :
  exists order',
    orders (handle (CancelExpiredOrders 1000000) (shop idleQueue)) !! 20%nat = Some order' /\
    Order.userId order' = Order.userId aliceOrder /\
    Order.items order' = Order.items aliceOrder /\
    Order.totalAmount order' = Order.totalAmount aliceOrder /\
    Order.paymentDeadline order' = Order.paymentDeadline aliceOrder /\
    (Order.status order' = Order.status aliceOrder \/
     allowedTransition (Order.status aliceOrder) (Order.status order') = true).
Proof.
  apply (request_moves_an_order_one_arrow_at_most
           (CancelExpiredOrders 1000000) (shop idleQueue) 20%nat aliceOrder).
  reflexivity.
Defined.

(** X27.  [DELIVERED] and [CANCELLED] are final.  An order in one of the
    two statuses is the same document after any sequence of requests: no
    payment, no run of the sweep and no status update of the admin route
    changes it again. *)
Theorem terminal_orders_never_change
    (rs : list Request) (s : State) (id : ObjectId) (order : Order.t) :
  orders s !! id = Some order ->
  Order.status order = Order.DELIVERED \/ Order.status order = Order.CANCELLED ->
  orders (handleAll rs s) !! id = Some order.
Proof.
  intros Horder Hterminal. revert s Horder.
  induction rs as [| r rs IH]; intros s Horder; [exact Horder |].
  apply IH.
  destruct (handle_oneArrow r s id order Horder) as (order' & Hlook & Harrow).
  rewrite Hlook. f_equal.
  destruct Harrow as [-> | (target & Hallowed & _)]; [reflexivity |].
  destruct Hterminal as [Hst | Hst]; rewrite Hst in Hallowed; now destruct target.
Qed.

Lemma terminal_orders_never_change_witness :
  orders (handleAll [Pay 5 "TXN_5_k3j9x2m1q" alice 20; AdminUpdateStatus 20 Order.PAID;
                     CancelExpiredOrders 2000000]
                    (handle (CancelExpiredOrders 1000000) (shop idleQueue))) !! 20%nat
  = Some (Order.setStatus Order.CANCELLED aliceOrder).
Proof.
  apply terminal_orders_never_change.
  - cbn [handle]. rewrite cancelExpiredOrders_orders. reflexivity.
  - now right.
Defined.

(** ** The pages of the list routes *)

Lemma ceilDiv_spec total limit :
  (1 <= limit)%nat ->
  (total <= ceilDiv total limit * limit)%nat /\
  forall page, (page < ceilDiv total limit)%nat <-> (page * limit < total)%nat.
Proof.
  intros Hlimit. unfold ceilDiv.
  pose proof (Nat.div_mod_eq total limit) as Hdiv.
  pose proof (Nat.mod_upper_bound total limit ltac:(lia)) as Hmod.
  destruct (Nat.eqb_spec (total mod limit) 0) as [Hzero | Hrest].
  - split; [nia |]. intros page. split; intros Hpage; nia.
  - split; [nia |]. intros page. split; intros Hpage; nia.
Qed.

Lemma pages_take {A : Type} (sorted : list A) (limit n : nat) :
  concat ((fun page => (paginate sorted page limit).1) <$> seq 1 n)
  = take (n * limit) sorted.
Proof.
  induction n as [| n IH]; [reflexivity |].
  rewrite seq_S, fmap_app, concat_app, IH. cbn [fmap list_fmap concat paginate fst].
  rewrite app_nil_r.
  replace (1 + n - 1)%nat with n by lia.
  rewrite take_take_drop. f_equal. lia.
Qed.

(** X28.  The pages of a list route.  For a page size of at least one, as
    the query schema lets through, the pages [1] to [totalPages] of a
    result, one after the other, are the whole sorted result with nothing
    left out and nothing repeated; a page has at most [limit] documents;
    and [hasNext] is true exactly when documents remain after the page. *)
Theorem pages_cover_the_result {A : Type} (sorted : list A) (limit : nat) :
  (1 <= limit)%nat ->
  concat ((fun page => (paginate sorted page limit).1)
            <$> seq 1 (totalPages (paginate sorted 1 limit).2))
  = sorted /\
  forall page,
    (length (paginate sorted page limit).1 <= limit)%nat /\
    (hasNext (paginate sorted page limit).2 = true <-> (page * limit < length sorted)%nat).
Proof.
  intros Hlimit.
  destruct (ceilDiv_spec (length sorted) limit Hlimit) as [Hcover Hnext].
  split.
  - rewrite pages_take. cbn [paginate snd totalPages]. now apply take_ge.
  - intros page. cbn [paginate fst snd hasNext]. split.
    + rewrite length_take. lia.
    + rewrite Nat.ltb_lt. apply Hnext.
Qed.

Lemma pages_cover_the_result_witness :
  concat ((fun page => (paginate [1; 2; 3; 4; 5]%Z page 2).1)
            <$> seq 1 (totalPages (paginate [1; 2; 3; 4; 5]%Z 1 2).2))
  = [1; 2; 3; 4; 5]%Z /\
  forall page,
    (length (paginate [1; 2; 3; 4; 5]%Z page 2).1 <= 2)%nat /\
    (hasNext (paginate [1; 2; 3; 4; 5]%Z page 2).2 = true
     <-> (page * 2 < length [1; 2; 3; 4; 5]%Z)%nat).
Proof. apply (pages_cover_the_result [1; 2; 3; 4; 5]%Z 2). lia. Defined.

(** ** The status update of the admin route and the stock *)

(** X29.  A cancellation by the admin route leaves the reservation where it
    is.  On an order that is [PENDING_PAYMENT] or [PAID] the route stores
    the status [CANCELLED] and touches no product; afterwards a [pay] on
    the order changes nothing, and a run of the sweep that finds no other
    order expired changes nothing either, so the units that the order
    holds stay in [reservedStock]. *)
Theorem admin_cancel_leaves_the_reservation (id : ObjectId) (s : State) (order : Order.t) :
  orders s !! id = Some order ->
  Order.status order = Order.PENDING_PAYMENT \/ Order.status order = Order.PAID ->
  let s' := (adminUpdateStatus id Order.CANCELLED s).1 in
  s' = setOrders (<[id := Order.setStatus Order.CANCELLED order]> (orders s)) s /\
  products s' = products s /\
  (forall now transactionId user, (pay now transactionId user id s').1 = s') /\
  (forall now,
     (forall id' order', id' <> id -> orders s !! id' = Some order' ->
                         expiredQuery now order' = false) ->
     cancelExpiredOrders now s' = (s', undefined)).
Proof.
  intros Horder Hstatus s'.
  assert (Hs' : s' = setOrders (<[id := Order.setStatus Order.CANCELLED order]> (orders s)) s).
  { unfold s', adminUpdateStatus. rewrite Horder. unfold Order.updateStatus.
    now destruct Hstatus as [-> | ->]. }
  split; [exact Hs' |]. split; [now rewrite Hs' |].
  assert (Hlook : orders s' !! id = Some (Order.setStatus Order.CANCELLED order)).
  { rewrite Hs'. apply lookup_insert_eq. }
  split.
  - intros now transactionId user.
    destruct (pay_rejects now transactionId user id s') as [_ Hrejected].
    destruct (Hrejected _ Hlook) as [Hother Hcancelled].
    destruct (decide (Order.userId (Order.setStatus Order.CANCELLED order) = User._id user))
      as [Howner | Howner].
    + now rewrite Hcancelled.
    + now rewrite Hother.
  - intros now Hothers. apply cancelExpiredOrders_nothing_expired.
    intros id' order'. destruct (decide (id' = id)) as [-> | Hne].
    + rewrite Hlook. now intros [= <-].
    + rewrite Hs'. cbn [orders setOrders]. rewrite lookup_insert_ne by congruence.
      now apply Hothers.
Qed.

Lemma admin_cancel_leaves_the_reservation_witness :
  let s' := (adminUpdateStatus 20 Order.CANCELLED (shop idleQueue)).1 in
  s' = setOrders (<[20%nat := Order.setStatus Order.CANCELLED aliceOrder]>
                    (orders (shop idleQueue))) (shop idleQueue) /\
  products s' = products (shop idleQueue) /\
  (forall now transactionId user, (pay now transactionId user 20 s').1 = s') /\
  (forall now,
     (forall id' order', id' <> 20%nat -> orders (shop idleQueue) !! id' = Some order' ->
                         expiredQuery now order' = false) ->
     cancelExpiredOrders now s' = (s', undefined)).
Proof.
  apply (admin_cancel_leaves_the_reservation 20%nat (shop idleQueue) aliceOrder).
  - reflexivity.
  - now left.
Defined.

(** ** The payments and the confirmation jobs *)

(** What a [pay] leaves of the payments and the queue, on every path. *)
Lemma pay_books now transactionId user id s :
  (payments (pay now transactionId user id s).1 = payments s /\
   emailQueue (pay now transactionId user id s).1 = emailQueue s) \/
  (exists order,
     orders s !! id = Some order /\
     Order.status order = Order.PENDING_PAYMENT /\
     payments (pay now transactionId user id s).1
     = payments s ++ [Payment.mk id transactionId (Order.totalAmount order)
                                 Payment.SUCCESS "MOCK_PAYMENT"] /\
     Queue.jobs (emailQueue (pay now transactionId user id s).1)
     = Queue.jobs (emailQueue s)
       ++ [Queue.mkJob "send-confirmation-email" id (User._id user) (User.email user)
                       (Order.totalAmount order)] /\
     orders (pay now transactionId user id s).1
     = <[id := Order.setStatus Order.PAID order]> (orders s)).
Proof.
  destruct (pay_rejects now transactionId user id s) as [Hmissing Hrejected].
  destruct (pay now transactionId user id s) as [s' result] eqn:Hpay. cbn [fst].
  destruct (orders s !! id) as [order |] eqn:Horder;
    [| injection (Hmissing eq_refl) as <- _; now left].
  destruct (Hrejected order eq_refl) as [Hother Hstatus].
  destruct (decide (Order.userId order = User._id user)) as [Howner | Howner];
    [| injection (Hother Howner) as <- _; now left].
  destruct (decide (Order.status order = Order.PENDING_PAYMENT)) as [Hpending | Hpending];
    [| injection (Hstatus Howner Hpending) as <- _; now left].
  clear Hmissing Hrejected Hother Hstatus.
  destruct (Z.le_gt_cases now (Order.paymentDeadline order)) as [Hdeadline | Hdeadline].
  - rewrite (pay_pending now transactionId user id s order Horder Howner Hpending Hdeadline)
      in Hpay.
    rewrite bind_run in Hpay. unfold Payment_create at 1 in Hpay.
    cbn [db session payments] in Hpay.
    destruct (existsb _ _); [injection Hpay as <- _; now left |].
    rewrite bind_run in Hpay. unfold Order_save at 1 in Hpay. cbn [db docs session] in Hpay.
    rewrite bind_run in Hpay.
    destruct (forEach confirmLine (Order.items order) _) as [c3 [e | []]] eqn:Hloop;
      pose proof (forEach_onlyProducts _ _
                    (fun x c c' r => invoke_onlyProducts _ _ _ c c' r) _ _ _ Hloop)
        as (Ho & Hp & _ & Hq & Hs & _);
      cbn [db session orders payments emailQueue setOrders app] in Ho, Hp, Hq, Hs.
    + injection Hpay as <- _. now left.
    + rewrite bind_run in Hpay. unfold emailQueue_add at 1 in Hpay.
      destruct (Queue.reachable _); cbn [endTransaction db session] in Hpay.
      * rewrite Hs in Hpay. injection Hpay as <- _.
        right. exists order. split; [reflexivity |]. split; [exact Hpending |].
        cbn [foldl commit payments emailQueue orders setPayments setEmailQueue Queue.jobs].
        now rewrite Hp, Hq, Ho.
      * injection Hpay as <- _. now left.
  - rewrite (pay_overdue now transactionId user id s order Horder Howner Hpending
               ltac:(lia)) in Hpay.
    rewrite bind_run in Hpay. unfold Order_save at 1 in Hpay. cbn [db docs session] in Hpay.
    rewrite bind_run in Hpay.
    destruct (forEach releaseLine (Order.items order) _) as [c3 [e | []]] eqn:Hloop;
      pose proof (forEach_onlyProducts _ _
                    (fun x c c' r => invoke_onlyProducts _ _ _ c c' r) _ _ _ Hloop)
        as (_ & Hp & _ & Hq & _);
      cbn [db payments emailQueue setOrders] in Hp, Hq;
      injection Hpay as <- _; now left.
Qed.

Lemma checkout_books now user s :
  payments (checkout now user s).1 = payments s /\
  emailQueue (checkout now user s).1 = emailQueue s.
Proof.
  rewrite checkout_run.
  destruct (carts s !! User._id user) as [cart |]; [| now split].
  destruct (length (Cart.items cart) =? 0)%nat; [now split |].
  destruct (checkoutItems _ _ _ _) as [c [e | [orderItems totalAmount]]] eqn:Hloop;
    pose proof (checkoutItems_onlyProducts _ _ _ _ _ _ Hloop) as (_ & Hp & _ & Hq & Hs & _);
    cbn [db session payments emailQueue] in Hp, Hq, Hs; [now split |].
  rewrite Hs. cbn [app foldl commit fst payments emailQueue setOrders setCarts].
  now split.
Qed.

Lemma cancelExpiredOrders_books now s :
  payments (cancelExpiredOrders now s).1 = payments s /\
  emailQueue (cancelExpiredOrders now s).1 = emailQueue s.
Proof.
  unfold cancelExpiredOrders. destruct (_ =? _)%nat; [now split |].
  destruct (forEach_cancelExpiredOrder
              (filter (fun o => expiredQuery now o.2 = true) (map_to_list (orders s)))
              (mkCtx s (products s) [])) as (c' & Hrun & _ & Hp & Hq).
  assert (Hsweep : (populate ;; forEach cancelExpiredOrder
                      (filter (fun o => expiredQuery now o.2 = true)
                              (map_to_list (orders s))))
                     (mkCtx s ∅ []) = (c', inr ())).
  { rewrite bind_run. unfold populate at 1. cbn [db docs session]. exact Hrun. }
  rewrite Hsweep. now split.
Qed.

Lemma handle_books r s :
  (payments (handle r s) = payments s /\ emailQueue (handle r s) = emailQueue s) \/
  (exists now transactionId user id order,
     r = Pay now transactionId user id /\
     orders s !! id = Some order /\
     Order.status order = Order.PENDING_PAYMENT /\
     payments (handle r s)
     = payments s ++ [Payment.mk id transactionId (Order.totalAmount order)
                                 Payment.SUCCESS "MOCK_PAYMENT"] /\
     Queue.jobs (emailQueue (handle r s))
     = Queue.jobs (emailQueue s)
       ++ [Queue.mkJob "send-confirmation-email" id (User._id user) (User.email user)
                       (Order.totalAmount order)] /\
     orders (handle r s) = <[id := Order.setStatus Order.PAID order]> (orders s)).
Proof.
  destruct r; cbn [handle].
  - left. unfold createProduct. now destruct (Product.save _) as [product [| e]].
  - left. unfold updateProduct. destruct (products s !! id); [| now split].
    now destruct (Product.save _) as [product [| e]].
  - left. unfold deleteProduct. now destruct (products s !! id).
  - left. unfold getCart, Cart_findOrCreate. now destruct (carts s !! _).
  - left. unfold addCartItem. destruct (products s !! productId); [| now split].
    destruct (_ <? _); [now split |].
    unfold Cart_findOrCreate.
    destruct (carts s !! _); cbn zeta iota; now destruct (Cart.addItem _ _ _).
  - left. unfold updateCartItem. destruct (_ || _); [now split |].
    destruct (products s !! productId); [| now split].
    destruct (carts s !! _); [| now split].
    match goal with |- context [if ?b then _ else _] => destruct b end; [now split |].
    now destruct (Cart.updateItemQuantity _ _ _).
  - left. unfold removeCartItem. now destruct (carts s !! _).
  - left. unfold clearCartRoute. now destruct (carts s !! _).
  - left. apply checkout_books.
  - destruct (pay_books now transactionId user id s)
      as [Hsame | (order & Horder & Hpending & Hp & Hq & Ho)]; [now left |].
    right. exists now, transactionId, user, id, order. now repeat split.
  - left. unfold adminUpdateStatus. destruct (orders s !! id); [| now split].
    now destruct (Order.updateStatus _ _) as [order [| e]].
  - left. apply cancelExpiredOrders_books.
Qed.

Lemma handle_booksSound r s : booksSound s -> booksSound (handle r s).
Proof.
  intros (Hkeys & Hnd & Hpaid).
  destruct (handle_books r s)
    as [[Hp Hq] | (now & transactionId & user & id & order & -> & Horder & Hpending &
                   Hp & Hq & Ho)].
  - unfold booksSound. rewrite Hp, Hq. split; [exact Hkeys |]. split; [exact Hnd |].
    intros p Hin. destruct (Hpaid p Hin) as (order & Horder & Hstatus & Hamount).
    destruct (handle_oneArrow r s _ _ Horder) as (order' & Hlook & Harrow).
    exists order'. split; [exact Hlook |].
    destruct Harrow as [-> | (target & Hallowed & ->)]; [now split |].
    split; [| exact Hamount]. cbn. intros ->.
    now destruct (Order.status order).
  - assert (Hfresh : forall p, p ∈ payments s -> Payment.orderId p <> id).
    { intros p Hin <-. destruct (Hpaid p Hin) as (order' & Horder' & Hstatus & _).
      congruence. }
    unfold booksSound. rewrite Hp, Hq, Ho, !fmap_app. split; [now rewrite Hkeys |]. split.
    + apply NoDup_app. split; [exact Hnd |]. split; [| apply NoDup_singleton].
      intros id' Hin Hin'. apply list_elem_of_singleton in Hin'. subst id'.
      apply list_elem_of_fmap in Hin as (p & Hid & Hin).
      now apply (Hfresh p Hin).
    + intros p Hin. apply elem_of_app in Hin as [Hin | Hin].
      * rewrite lookup_insert_ne by (apply not_eq_sym, Hfresh, Hin). now apply Hpaid.
      * apply list_elem_of_singleton in Hin. subst p. cbn [Payment.orderId Payment.amount].
        rewrite lookup_insert_eq. eexists. split; [reflexivity |]. now split.
Qed.

(** X30.  The books.  When the requests are handled one after the other
    from collections whose books are sound, they are sound again at the
    end: the confirmation jobs handed to the queue are those of the stored
    payments, one for one; no order has two payments; and every payment is
    of an order that has left [PENDING_PAYMENT], for that order's total
    amount. *)
Theorem requests_keep_the_books (rs : list Request) (s : State) :
  booksSound s -> booksSound (handleAll rs s).
Proof.
  revert s. induction rs as [| r rs IH]; intros s Hs; [exact Hs |].
  apply IH, handle_booksSound, Hs.
Qed.

Lemma requests_keep_the_books_witness :
  booksSound (handleAll [Pay 5 "TXN_5_k3j9x2m1q" alice 20; Pay 6 "TXN_6_p0q8w7e6r" alice 20;
                         AdminUpdateStatus 20 Order.SHIPPED]
                        (shop idleQueue)).
Proof.
  apply requests_keep_the_books.
  split; [reflexivity |]. split; [apply NoDup_nil_2 |].
  intros p Hin. now apply elem_of_nil in Hin.
Defined.
